(** * FaskerAI: the chat component of [src/App.jsx]

    A shallow embedding of the state and the two handlers of the React
    component [FaskerAI] ([handleSendMessage] and [clearChat]), together with
    the parts of the JavaScript platform they rely on: UTF-16 strings and
    [String.prototype.trim], truthiness, property access with and without
    optional chaining, [ToString], [JSON.stringify], and the outcome of
    [fetch] / [Response.json].

    React state is modelled by explicit state passing: a handler is a
    computation over the five [useState] cells that can complete normally or
    throw, and that records the effects it performs on the outside world
    (network requests, console output).  The single suspension point of
    [handleSendMessage] (the awaited [fetch]) splits it into the part that
    runs when the user submits and the part that runs when the request
    settles.

    A handler is a closure of the render that created it: it reads [input],
    [loading], [apiKey] and [sidebarOpen] as that render saw them, while the
    setters act on the current state.  Sessions ([step], [play]) describe
    the component when it re-renders after every event; pages ([act],
    [replay]) make the render an action of its own, so that several events can
    reach the handlers of one render. *)

From Stdlib Require Import ZArith NArith List Bool String Ascii DecimalString Lia.
From Stdlib Require Import Sorted.
Import ListNotations.

Set Implicit Arguments.
Set Warnings "-register-all".
Local Open Scope list_scope.

(** ** JavaScript strings *)

(** A JavaScript string is a sequence of UTF-16 code units. *)
Definition code_unit : Type := N.
Definition jsstring : Type := list code_unit.

(** A string literal of the source; every literal of [App.jsx] that reaches
    the model is plain ASCII. *)
Definition lit (s : string) : jsstring :=
  map N_of_ascii (list_ascii_of_string s).

Fixpoint jsstring_eqb (a b : jsstring) : bool :=
  match a, b with
  | [], [] => true
  | x :: a', y :: b' => N.eqb x y && jsstring_eqb a' b'
  | _, _ => false
  end.

(** ECMAScript [WhiteSpace] and [LineTerminator] code points, the ones
    [String.prototype.trim] strips: TAB, LF, VT, FF, CR, SP, NBSP, U+1680,
    U+2000..U+200A, U+2028, U+2029, U+202F, U+205F, U+3000 and U+FEFF. *)
Definition is_white (c : code_unit) : bool :=
  existsb (N.eqb c)
    [9; 10; 11; 12; 13; 32; 160; 5760; 8232; 8233; 8239; 8287; 12288; 65279]%N
  || (N.leb 8192 c && N.leb c 8202).

Fixpoint trim_start (s : jsstring) : jsstring :=
  match s with
  | [] => []
  | c :: r => if is_white c then trim_start r else s
  end.

Definition trim_end (s : jsstring) : jsstring := rev (trim_start (rev s)).

(** [s.trim()] *)
Definition trim (s : jsstring) : jsstring := trim_end (trim_start s).

(** [hay.includes(needle)] *)
Fixpoint starts_with (needle hay : jsstring) : bool :=
  match needle, hay with
  | [], _ => true
  | x :: n', y :: h' => N.eqb x y && starts_with n' h'
  | _ :: _, [] => false
  end.

Fixpoint includes (hay needle : jsstring) : bool :=
  starts_with needle hay ||
  match hay with
  | [] => false
  | _ :: h' => includes h' needle
  end.

(** Decimal rendering of a non-negative integer, as [ToString] gives for the
    small integers the program renders (an HTTP status, an array index). *)
Definition decimal (n : N) : jsstring :=
  lit (NilZero.string_of_uint (N.to_uint n)).

(** ** JSON values *)

(** A JSON number is kept by what this program can observe of it: whether it
    is truthy (it is not [0] or [-0]) and the text [ToString] renders it as. *)
Record number : Type := { num_truthy : bool; num_text : jsstring }.

Inductive json : Type :=
| JNull
| JBool (b : bool)
| JNum (n : number)
| JStr (s : jsstring)
| JArr (items : list json)
| JObj (fields : list (jsstring * json)).

(** A JavaScript value that came out of [JSON.parse] or is [undefined]
    ([None]): the result of a property read. *)
Definition value : Type := option json.

(** [ToBoolean] *)
Definition truthy (v : json) : bool :=
  match v with
  | JNull => false
  | JBool b => b
  | JNum n => num_truthy n
  | JStr [] => false
  | JStr (_ :: _) => true
  | JArr _ | JObj _ => true
  end.

Definition truthy_value (v : value) : bool :=
  match v with
  | None => false
  | Some j => truthy j
  end.

(** [a || b] with a string fallback on the right. *)
Definition or_else (a : value) (b : json) : json :=
  match a with
  | Some j => if truthy j then j else b
  | None => b
  end.

(** Whether an object built by [JSON.parse] has a member of that name. *)
Fixpoint has_member (fields : list (jsstring * json)) (k : jsstring) : bool :=
  match fields with
  | [] => false
  | (k', _) :: r => jsstring_eqb k' k || has_member r k
  end.

(** [ToString], which [new Error(v)] applies to its argument; [None] when
    the conversion throws a TypeError.  An array is its elements joined by
    commas, [null] elements rendering as the empty string.  An object is
    ["[object Object]"] through the inherited [toString]; an object with a
    member of its own called [toString] hides that method behind a value
    that cannot be called, and neither its [valueOf] member nor the
    inherited [valueOf] yields a primitive, so the conversion throws. *)
Fixpoint to_string (v : json) : option jsstring :=
  match v with
  | JNull => Some (lit "null")
  | JBool true => Some (lit "true")
  | JBool false => Some (lit "false")
  | JNum n => Some (num_text n)
  | JStr s => Some s
  | JArr items =>
      (fix join (l : list json) : option jsstring :=
         match l with
         | [] => Some []
         | x :: r =>
             match (match x with JNull => Some [] | _ => to_string x end) with
             | None => None
             | Some e =>
                 match r with
                 | [] => Some e
                 | _ :: _ =>
                     match join r with
                     | Some t => Some (e ++ lit "," ++ t)
                     | None => None
                     end
                 end
             end
         end) items
  | JObj fields =>
      if has_member fields (lit "toString") then None
      else Some (lit "[object Object]")
  end.

(** A property key: an identifier name of the source ([.candidates]) or an
    array index ([[0]]).  The names the program reads ([candidates],
    [content], [parts], [text], [error], [message]) are never inherited
    from a prototype, so only own properties are modelled. *)
Inductive key : Type :=
| Name (s : jsstring)
| Index (i : nat).

Definition key_string (k : key) : jsstring :=
  match k with
  | Name s => s
  | Index i => decimal (N.of_nat i)
  end.

(** Own property of an object built by [JSON.parse]: of two members with the
    same name the later one wins. *)
Fixpoint own (fields : list (jsstring * json)) (k : jsstring) : value :=
  match fields with
  | [] => None
  | (k', v) :: r =>
      match own r k with
      | Some w => Some w
      | None => if jsstring_eqb k' k then Some v else None
      end
  end.

(** Property read on a value that is neither [null] nor [undefined]. *)
Definition prop (v : json) (k : key) : value :=
  match v with
  | JObj fields => own fields (key_string k)
  | JArr items =>
      match k with
      | Index i => nth_error items i
      | Name _ => None
      end
  | JStr s =>
      match k with
      | Index i => option_map (fun c => JStr [c]) (nth_error s i)
      | Name _ => None
      end
  | JNull | JBool _ | JNum _ => None
  end.

Definition nullish (v : value) : bool :=
  match v with
  | None | Some JNull => true
  | Some _ => false
  end.

(** [v?.k]: [undefined] when [v] is [null] or [undefined]. *)
Definition opt_member (v : value) (k : key) : value :=
  match v with
  | None | Some JNull => None
  | Some j => prop j k
  end.

(** ** JSON.stringify *)

Definition hex_digit (n : N) : code_unit :=
  if N.ltb n 10 then (48 + n)%N else (87 + n)%N.

(** [\uXXXX] with four lower-case hexadecimal digits. *)
Definition unicode_escape (c : code_unit) : jsstring :=
  lit "\u" ++
  [hex_digit (N.modulo (N.div c 4096) 16); hex_digit (N.modulo (N.div c 256) 16);
   hex_digit (N.modulo (N.div c 16) 16); hex_digit (N.modulo c 16)].

Definition is_high_surrogate (c : code_unit) : bool := N.leb 55296 c && N.leb c 56319.
Definition is_low_surrogate (c : code_unit) : bool := N.leb 56320 c && N.leb c 57343.

Definition quote_unit (c : code_unit) : jsstring :=
  if N.eqb c 8 then lit "\b"
  else if N.eqb c 9 then lit "\t"
  else if N.eqb c 10 then lit "\n"
  else if N.eqb c 12 then lit "\f"
  else if N.eqb c 13 then lit "\r"
  else if N.eqb c 34 then [92; 34]%N
  else if N.eqb c 92 then [92; 92]%N
  else if N.ltb c 32 || is_high_surrogate c || is_low_surrogate c
       then unicode_escape c
  else [c].

(** The characters of a quoted JSON string: a surrogate pair is kept, a lone
    surrogate is escaped. *)
Fixpoint quote_units (s : jsstring) : jsstring :=
  match s with
  | [] => []
  | c :: r =>
      match r with
      | d :: r' =>
          if is_high_surrogate c && is_low_surrogate d
          then c :: d :: quote_units r'
          else quote_unit c ++ quote_units r
      | [] => quote_unit c
      end
  end.

Definition quote_json_string (s : jsstring) : jsstring :=
  [34%N] ++ quote_units s ++ [34%N].

(** [JSON.stringify(v)] without indentation; members are written in the
    order of the object literal. *)
Fixpoint JSON_stringify (v : json) : jsstring :=
  match v with
  | JNull => lit "null"
  | JBool true => lit "true"
  | JBool false => lit "false"
  | JNum n => num_text n
  | JStr s => quote_json_string s
  | JArr items =>
      lit "[" ++
      (fix elems (l : list json) : jsstring :=
         match l with
         | [] => []
         | x :: r =>
             match r with
             | [] => JSON_stringify x
             | _ :: _ => JSON_stringify x ++ lit "," ++ elems r
             end
         end) items ++ lit "]"
  | JObj fields =>
      lit "{" ++
      (fix members (l : list (jsstring * json)) : jsstring :=
         match l with
         | [] => []
         | (k, x) :: r =>
             let m := quote_json_string k ++ lit ":" ++ JSON_stringify x in
             match r with
             | [] => m
             | _ :: _ => m ++ lit "," ++ members r
             end
         end) fields ++ lit "}"
  end.

(** ** Errors, messages and component state *)

(** A thrown [Error] object; the program reads only its [message]. *)
Record Error : Type := { error_name : jsstring; error_message : jsstring }.

Inductive Sender : Type := user | bot.

(** An element of the [messages] array.  [id] is a number ([1] for the
    greeting, otherwise a [Date.now()] reading in milliseconds, possibly
    plus one); [text] is whatever value the handler stored, which for a
    reply is the value found in the response body. *)
Record Message : Type := { id : Z; text : value; sender : Sender }.

(** The five [useState] cells of the component. *)
Record State : Type := {
  messages : list Message;
  input : jsstring;
  loading : bool;
  apiKey : jsstring;
  sidebarOpen : bool
}.

(** The argument of [fetch]: the URL and the [init] object. *)
Record Request : Type := {
  url : jsstring;
  method : jsstring;
  headers : list (jsstring * jsstring);
  body : jsstring
}.

(** Effects on the outside world. *)
Inductive Effect : Type :=
| Fetch (req : Request)
| ConsoleError (label : jsstring) (e : Error)
| ConsoleWarn (msg : jsstring).

Definition is_fetch (e : Effect) : bool :=
  match e with
  | Fetch _ => true
  | _ => false
  end.

(** What the awaited [response.json()] gives: the parsed body, or a
    rejection (the body is not JSON, or could not be read). *)
Inductive BodyResult : Type :=
| Parsed (data : json)
| BodyRejected (e : Error).

(** A [Response]: its status and what reading its body as JSON gives. *)
Record Response : Type := { status : N; json_body : BodyResult }.

(** [response.ok]: the status is in the range 200..299. *)
Definition ok (r : Response) : bool :=
  N.leb 200 (status r) && N.leb (status r) 299.

(** What the awaited [fetch(...)] gives: a response, whatever its status, or
    a rejection (network failure). *)
Inductive FetchResult : Type :=
| Responded (r : Response)
| Rejected (e : Error).

(** ** Handler computations *)

(** How a piece of JavaScript completes. *)
Inductive completion (A : Type) : Type :=
| Normal (a : A)
| Throw (e : Error).
Arguments Normal {A} a.
Arguments Throw {A} e.

(** Running a handler from a state: how it completed, the state it left and
    the effects it performed, in order. *)
Record run (A : Type) : Type := {
  outcome : completion A;
  next : State;
  effects : list Effect
}.

Definition M (A : Type) : Type := State -> run A.

Definition ret {A} (a : A) : M A :=
  fun s => {| outcome := Normal a; next := s; effects := [] |}.

Definition throw {A} (e : Error) : M A :=
  fun s => {| outcome := Throw e; next := s; effects := [] |}.

Definition bind {A B} (m : M A) (f : A -> M B) : M B :=
  fun s =>
    match m s with
    | {| outcome := Normal a; next := s1; effects := l1 |} =>
        match f a s1 with
        | {| outcome := o; next := s2; effects := l2 |} =>
            {| outcome := o; next := s2; effects := l1 ++ l2 |}
        end
    | {| outcome := Throw e; next := s1; effects := l1 |} =>
        {| outcome := Throw e; next := s1; effects := l1 |}
    end.

Notation "x <- m ;; k" := (bind m (fun x => k))
  (at level 61, m at next level, right associativity).
Notation "m ;; k" := (bind m (fun _ => k))
  (at level 61, right associativity).

(** [try { body } catch (error) { handler error } finally { cleanup }]:
    the handler runs when the body throws, the cleanup runs in every case,
    and a cleanup that throws replaces the completion reached before it. *)
Definition try_catch_finally (body : M unit) (handler : Error -> M unit)
    (cleanup : M unit) : M unit :=
  fun s =>
    let caught :=
      match body s with
      | {| outcome := Normal a; next := s1; effects := l1 |} =>
          {| outcome := Normal a; next := s1; effects := l1 |}
      | {| outcome := Throw e; next := s1; effects := l1 |} =>
          match handler e s1 with
          | {| outcome := o; next := s2; effects := l2 |} =>
              {| outcome := o; next := s2; effects := l1 ++ l2 |}
          end
      end in
    match caught with
    | {| outcome := o; next := s2; effects := l2 |} =>
        match cleanup s2 with
        | {| outcome := Normal _; next := s3; effects := l3 |} =>
            {| outcome := o; next := s3; effects := l2 ++ l3 |}
        | {| outcome := Throw e; next := s3; effects := l3 |} =>
            {| outcome := Throw e; next := s3; effects := l2 ++ l3 |}
        end
    end.

(** The values of the state cells as the running closure sees them: the
    ones of the render that created the handler. *)
Definition render : M State :=
  fun s => {| outcome := Normal s; next := s; effects := [] |}.

Definition update (f : State -> State) : M unit :=
  fun s => {| outcome := Normal tt; next := f s; effects := [] |}.

Definition perform (e : Effect) : M unit :=
  fun s => {| outcome := Normal tt; next := s; effects := [e] |}.

Definition lift {A} (c : completion A) : M A :=
  match c with
  | Normal a => ret a
  | Throw e => throw e
  end.

(** The state setters.  [setMessages] takes the updater applied to the
    current list; [clearChat], which passes an array, uses a constant one. *)
Definition setMessages (f : list Message -> list Message) : M unit :=
  update (fun s => {| messages := f (messages s); input := input s;
                      loading := loading s; apiKey := apiKey s;
                      sidebarOpen := sidebarOpen s |}).

Definition setInput (v : jsstring) : M unit :=
  update (fun s => {| messages := messages s; input := v;
                      loading := loading s; apiKey := apiKey s;
                      sidebarOpen := sidebarOpen s |}).

Definition setLoading (v : bool) : M unit :=
  update (fun s => {| messages := messages s; input := input s;
                      loading := v; apiKey := apiKey s;
                      sidebarOpen := sidebarOpen s |}).

Definition setApiKey (v : jsstring) : M unit :=
  update (fun s => {| messages := messages s; input := input s;
                      loading := loading s; apiKey := v;
                      sidebarOpen := sidebarOpen s |}).

Definition setSidebarOpen (v : bool) : M unit :=
  update (fun s => {| messages := messages s; input := input s;
                      loading := loading s; apiKey := apiKey s;
                      sidebarOpen := v |}).

(** ** The component *)

(** What the model needs to know of the JavaScript engine: the message of
    the TypeError raised when a property is read from [null] or [undefined]
    (given the offending value and the key), and the message of the
    TypeError raised when an object cannot be converted to a string. *)
Record Engine : Type := {
  nullish_read_message : value -> key -> jsstring;
  to_primitive_message : jsstring
}.

Section Component.

(** The wording of the two TypeErrors the program can provoke differs
    between engines, so the engine is a parameter. *)
Variable engine : Engine.

(** [v.k]: a property read without optional chaining. *)
Definition member (v : value) (k : key) : completion value :=
  match v with
  | None | Some JNull =>
      Throw {| error_name := lit "TypeError";
               error_message := nullish_read_message engine v k |}
  | Some j => Normal (prop j k)
  end.

(** [new Error(v)]: the message is [ToString v]; when that conversion
    throws, the expression throws its TypeError instead of giving an
    error object. *)
Definition new_Error (v : json) : completion Error :=
  match to_string v with
  | Some m => Normal {| error_name := lit "Error"; error_message := m |}
  | None =>
      Throw {| error_name := lit "TypeError";
               error_message := to_primitive_message engine |}
  end.

(** [useState] initial values. *)
Definition initial : State := {|
  messages :=
    [ {| id := 1;
         text := Some (JStr (lit "Hello! I'm FaskerAI. How can I help you today?"));
         sender := bot |} ];
  input := [];
  loading := false;
  apiKey := [];
  sidebarOpen := false
|}.

(** The mount effect: [envKey] is [import.meta.env.VITE_GEMINI_API_KEY], a
    string or [undefined]. *)
Definition initApiKey (envKey : option jsstring) : M unit :=
  match envKey with
  | Some (c :: k) => setApiKey (c :: k)
  | Some [] | None =>
      perform (ConsoleWarn
        (lit "VITE_GEMINI_API_KEY not found in environment variables"))
  end.

Definition endpoint : jsstring :=
  lit "https://generativelanguage.googleapis.com/v1beta/models/gemini-2.5-flash:generateContent?key=".

(** The arguments of the [fetch] call, for the [apiKey] and [input] of the
    render the handler closes over. *)
Definition request (key text : jsstring) : Request := {|
  url := endpoint ++ key;
  method := lit "POST";
  headers := [ (lit "Content-Type", lit "application/json") ];
  body :=
    JSON_stringify
      (JObj [ (lit "contents",
               JArr [ JObj [ (lit "parts",
                              JArr [ JObj [ (lit "text", JStr text) ] ]) ] ]) ])
|}.

(** [handleSendMessage] up to its first [await]: everything that runs in the
    event handler itself.  [now] is the reading of [Date.now()] (at most one
    is taken here).  The result is the request handed to [fetch], if one was
    issued.  [input], [loading] and [apiKey] are the constants of the
    closure, so they keep their values after [setInput] and [setLoading].
    The call of [fetch] is already inside the [try] block of the source;
    nothing before the [await] can throw. *)
Definition handleSendMessage_submit (now : Z) : M (option Request) :=
  s <- render ;;
  if negb (truthy (JStr (trim (input s)))) || loading s then ret None
  else if negb (truthy (JStr (apiKey s))) then
    setMessages (fun prev => prev ++
      [ {| id := now;
           text := Some (JStr (lit
             "Error: API key not configured. Please check your .env file."));
           sender := bot |} ]) ;;
    ret None
  else
    let userMessage := {| id := now; text := Some (JStr (input s)); sender := user |} in
    setMessages (fun prev => prev ++ [userMessage]) ;;
    setInput [] ;;
    setLoading true ;;
    let req := request (apiKey s) (input s) in
    perform (Fetch req) ;;
    ret (Some req).

Definition await_fetch (result : FetchResult) : M Response :=
  match result with
  | Responded r => ret r
  | Rejected e => throw e
  end.

Definition await_json (r : Response) : M json :=
  match json_body r with
  | Parsed data => ret data
  | BodyRejected e => throw e
  end.

(** [data.candidates?.[0]?.content?.parts?.[0]?.text] *)
Definition reply_probe (data : json) : completion value :=
  match member (Some data) (Name (lit "candidates")) with
  | Throw e => Throw e
  | Normal candidates =>
      Normal
        (opt_member
           (opt_member
              (opt_member
                 (opt_member (opt_member candidates (Index 0))
                    (Name (lit "content")))
                 (Name (lit "parts")))
              (Index 0))
           (Name (lit "text")))
  end.

Definition and_then (c : completion value) (k : key) : completion value :=
  match c with
  | Throw e => Throw e
  | Normal v => member v k
  end.

(** [data.candidates[0].content.parts[0].text] *)
Definition reply_read (data : json) : completion value :=
  and_then
    (and_then
       (and_then
          (and_then
             (and_then (member (Some data) (Name (lit "candidates"))) (Index 0))
             (Name (lit "content")))
          (Name (lit "parts")))
       (Index 0))
    (Name (lit "text")).

(** The rest of [handleSendMessage]: the [try]/[catch]/[finally] statement
    from the point where the awaited [fetch] settles with [result].  [now]
    is the reading of [Date.now()] in whichever of the two branches that
    append a message runs.  The two awaits ([fetch] and [response.json()])
    are taken in one step: what follows them reads only [response] and
    [data] and writes through the setters, so nothing that runs in between
    can change its course. *)
Definition handleSendMessage_settle (result : FetchResult) (now : Z) : M unit :=
  try_catch_finally
    (response <- await_fetch result ;;
     data <- await_json response ;;
     (if negb (ok response) then
        err <- lift (member (Some data) (Name (lit "error"))) ;;
        failure <- lift (new_Error
          (or_else (opt_member err (Name (lit "message")))
             (JStr (lit "API request failed with status "
                    ++ decimal (status response))))) ;;
        throw failure
      else ret tt) ;;
     probe <- lift (reply_probe data) ;;
     if truthy_value probe then
       botReply <- lift (reply_read data) ;;
       setMessages (fun prev => prev ++
         [ {| id := now + 1; text := botReply; sender := bot |} ])
     else
       failure <- lift
         (new_Error (JStr (lit "Invalid response format from API"))) ;;
       throw failure)
    (fun error =>
       perform (ConsoleError (lit "API Error:") error) ;;
       setMessages (fun prev => prev ++
         [ {| id := now + 1;
              text := Some (JStr (lit "Sorry, I encountered an error: "
                                  ++ error_message error));
              sender := bot |} ]))
    (setLoading false).

(** One whole call of [handleSendMessage] with nothing else happening while
    the request is pending: [net] is the endpoint (what [fetch] settles
    with), [now1] and [now2] the clock readings before and after. *)
Definition handleSendMessage (now1 : Z) (net : Request -> FetchResult)
    (now2 : Z) : M unit :=
  pending <- handleSendMessage_submit now1 ;;
  match pending with
  | Some req => handleSendMessage_settle (net req) now2
  | None => ret tt
  end.

(** [clearChat]; [setMessages] is given an array here, not an updater. *)
Definition clearChat : M unit :=
  setMessages (fun _ =>
    [ {| id := 1;
         text := Some (JStr (lit "Hello! I'm FaskerAI. How can I help you today?"));
         sender := bot |} ]) ;;
  setSidebarOpen false.

(** The inline handlers of the markup. *)
Definition onChange (target_value : jsstring) : M unit := setInput target_value.

Definition toggleSidebar : M unit :=
  s <- render ;; setSidebarOpen (negb (sidebarOpen s)).

(** ** A session: the component and its pending requests *)

(** Each pending request stands for one suspended call of
    [handleSendMessage]. *)
Record Session : Type := { ui : State; in_flight : list Request }.

Inductive Event : Type :=
| Submit (now : Z)
| Settle (i : nat) (result : FetchResult) (now : Z)
| TypeInput (v : jsstring)
| NewChat
| ToggleSidebar.

Fixpoint remove_nth {A} (i : nat) (l : list A) : list A :=
  match l, i with
  | [], _ => []
  | _ :: r, O => r
  | x :: r, S j => x :: remove_nth j r
  end.

(** One event, handled by the handlers of a render that has seen every
    earlier update (the component re-rendered since the previous event). *)
Definition step (w : Session) (e : Event) : Session :=
  match e with
  | Submit now =>
      let r := handleSendMessage_submit now (ui w) in
      {| ui := next r;
         in_flight :=
           match outcome r with
           | Normal (Some req) => in_flight w ++ [req]
           | _ => in_flight w
           end |}
  | Settle i result now =>
      match nth_error (in_flight w) i with
      | Some _ =>
          {| ui := next (handleSendMessage_settle result now (ui w));
             in_flight := remove_nth i (in_flight w) |}
      | None => w
      end
  | TypeInput v => {| ui := next (onChange v (ui w)); in_flight := in_flight w |}
  | NewChat => {| ui := next (clearChat (ui w)); in_flight := in_flight w |}
  | ToggleSidebar => {| ui := next (toggleSidebar (ui w)); in_flight := in_flight w |}
  end.

Definition mounted (envKey : option jsstring) : Session :=
  {| ui := next (initApiKey envKey initial); in_flight := [] |}.

Definition play (w : Session) (events : list Event) : Session :=
  fold_left step events w.

Definition reachable (w : Session) : Prop :=
  exists envKey events, w = play (mounted envKey) events.

End Component.

(** The wording of V8 (Chrome, Node.js) for that TypeError, used where a
    concrete engine is needed. *)
Definition v8_nullish_read_message (v : value) (k : key) : jsstring :=
  lit "Cannot read properties of "
  ++ match v with None => lit "undefined" | Some _ => lit "null" end
  ++ lit " (reading '" ++ key_string k ++ lit "')".

Definition v8 : Engine := {|
  nullish_read_message := v8_nullish_read_message;
  to_primitive_message := lit "Cannot convert object to primitive value"
|}.

(** The success body [{ candidates: [ { content: { parts: [ { text } ] } } ] }]. *)
Definition success_body (reply : json) : json :=
  JObj [ (lit "candidates",
          JArr [ JObj [ (lit "content",
                         JObj [ (lit "parts",
                                 JArr [ JObj [ (lit "text", reply) ] ]) ]) ] ]) ].

(** The error body [{ error: { message } }]. *)
Definition error_body (msg : json) : json :=
  JObj [ (lit "error", JObj [ (lit "message", msg) ]) ].

(** ** Pages: renders and the closures they create *)

(** The part of [handleSendMessage] that runs in the event handler, for the
    handler created by the render that saw [view]: the guard, the user
    message and the request read [input], [loading] and [apiKey] of that
    render, whatever the state has become since. *)
Definition handleSendMessage_submit_of (view : State) (now : Z)
    : M (option Request) :=
  if negb (truthy (JStr (trim (input view)))) || loading view then ret None
  else if negb (truthy (JStr (apiKey view))) then
    setMessages (fun prev => prev ++
      [ {| id := now;
           text := Some (JStr (lit
             "Error: API key not configured. Please check your .env file."));
           sender := bot |} ]) ;;
    ret None
  else
    let userMessage :=
      {| id := now; text := Some (JStr (input view)); sender := user |} in
    setMessages (fun prev => prev ++ [userMessage]) ;;
    setInput [] ;;
    setLoading true ;;
    let req := request (apiKey view) (input view) in
    perform (Fetch req) ;;
    ret (Some req).

(** [() => setSidebarOpen(!sidebarOpen)] of the render that saw [view]. *)
Definition toggleSidebar_of (view : State) : M unit :=
  setSidebarOpen (negb (sidebarOpen view)).

(** The component between two renders: the current state, the state the
    latest render saw (the one its handlers close over and its markup
    shows), and the pending requests. *)
Record Page : Type := {
  current : State;
  view : State;
  awaiting : list Request
}.

(** An event reaching the handlers of the latest render, or React
    rendering the component again. *)
Inductive Action : Type :=
| Dispatch (e : Event)
| Render.

Section Pages.

Variable engine : Engine.

Definition act (p : Page) (a : Action) : Page :=
  match a with
  | Render => {| current := current p; view := current p; awaiting := awaiting p |}
  | Dispatch (Submit now) =>
      let r := handleSendMessage_submit_of (view p) now (current p) in
      {| current := next r;
         view := view p;
         awaiting :=
           match outcome r with
           | Normal (Some req) => awaiting p ++ [req]
           | _ => awaiting p
           end |}
  | Dispatch (Settle i result now) =>
      match nth_error (awaiting p) i with
      | Some _ =>
          {| current :=
               next (handleSendMessage_settle engine result now (current p));
             view := view p;
             awaiting := remove_nth i (awaiting p) |}
      | None => p
      end
  | Dispatch (TypeInput v) =>
      {| current := next (onChange v (current p)); view := view p;
         awaiting := awaiting p |}
  | Dispatch NewChat =>
      {| current := next (clearChat (current p)); view := view p;
         awaiting := awaiting p |}
  | Dispatch ToggleSidebar =>
      {| current := next (toggleSidebar_of (view p) (current p));
         view := view p; awaiting := awaiting p |}
  end.

Definition replay (p : Page) (actions : list Action) : Page :=
  fold_left act actions p.

End Pages.

(** The page after the first render and the mount effect: the handlers of
    that render still see the initial state. *)
Definition opened (envKey : option jsstring) : Page :=
  {| current := next (initApiKey envKey initial); view := initial;
     awaiting := [] |}.

(** Every event followed by a render. *)
Definition rendering (events : list Event) : list Action :=
  flat_map (fun e => [Dispatch e; Render]) events.

(** A session seen as a page that has just been rendered. *)
Definition page_of (w : Session) : Page :=
  {| current := ui w; view := ui w; awaiting := in_flight w |}.

(** The pages the component can be in when it re-renders after the mount
    effect and after every event. *)
Definition rendered_after_every_event (engine : Engine) (p : Page) : Prop :=
  exists envKey events,
    p = replay engine (opened envKey) (Render :: rendering events).

(** ** Vocabulary of the properties *)

(** The value found by following a path of keys, [undefined] as soon as a
    step meets [null] or [undefined]. *)
Fixpoint at_path (v : value) (p : list key) : value :=
  match p with
  | [] => v
  | k :: p' => at_path (opt_member v k) p'
  end.

(** [candidates[0].content.parts[0].text] *)
Definition reply_path : list key :=
  [ Name (lit "candidates"); Index 0; Name (lit "content");
    Name (lit "parts"); Index 0; Name (lit "text") ].

(** [error.message] *)
Definition error_path : list key := [ Name (lit "error"); Name (lit "message") ].

(** A submission is accepted when the entry guard lets it through and a
    credential is configured. *)
Definition accepted (s : State) : Prop :=
  trim (input s) <> [] /\ loading s = false /\ apiKey s <> [].

(** The request settled with a reply: a 2xx response whose parsed body has a
    truthy value at the reply path. *)
Definition replied (result : FetchResult) : bool :=
  match result with
  | Responded r =>
      ok r &&
      match json_body r with
      | Parsed data => truthy_value (at_path (Some data) reply_path)
      | BodyRejected _ => false
      end
  | Rejected _ => false
  end.

Definition user_message (now : Z) (s : State) : Message :=
  {| id := now; text := Some (JStr (input s)); sender := user |}.

Definition bot_message (now : Z) (v : value) : Message :=
  {| id := now + 1; text := v; sender := bot |}.

Definition apology (reason : jsstring) : value :=
  Some (JStr (lit "Sorry, I encountered an error: " ++ reason)).

Definition missing_key_message (now : Z) : Message :=
  {| id := now;
     text := Some (JStr (lit
       "Error: API key not configured. Please check your .env file."));
     sender := bot |}.

Definition with_messages (s : State) (l : list Message) : State :=
  {| messages := l; input := input s; loading := loading s;
     apiKey := apiKey s; sidebarOpen := sidebarOpen s |}.

(** The state an accepted submission leaves while its request is pending. *)
Definition pending_state (now : Z) (s : State) : State :=
  {| messages := messages s ++ [user_message now s]; input := [];
     loading := true; apiKey := apiKey s; sidebarOpen := sidebarOpen s |}.

(** The state after the request settled, from the state [s] it found. *)
Definition settled_state (s : State) (m : Message) : State :=
  {| messages := messages s ++ [m]; input := input s;
     loading := false; apiKey := apiKey s; sidebarOpen := sidebarOpen s |}.

(** The run of the [try] statement when a reply [v] was found. *)
Definition run_reply (now : Z) (s : State) (v : value) : run unit :=
  {| outcome := Normal tt;
     next := settled_state s (bot_message now v);
     effects := [] |}.

(** The run of the [try] statement when [e] was thrown and caught. *)
Definition run_failure (now : Z) (s : State) (e : Error) : run unit :=
  {| outcome := Normal tt;
     next := settled_state s (bot_message now (apology (error_message e)));
     effects := [ConsoleError (lit "API Error:") e] |}.

(** The wording of the error thrown for a response outside 200..299. *)
Definition status_text (st : N) : json :=
  JStr (lit "API request failed with status " ++ decimal st).

Definition invalid_format : Error :=
  {| error_name := lit "Error";
     error_message := lit "Invalid response format from API" |}.

(** What [throw new Error(v)] throws: the error object, or the TypeError of
    the conversion. *)
Definition raised (c : completion Error) : Error :=
  match c with
  | Normal e => e
  | Throw e => e
  end.


(** What every reachable session satisfies: the number of pending requests
    is told by [loading], and [loading] is set only with a credential. *)
Definition session_invariant (w : Session) : Prop :=
  List.length (in_flight w) = (if loading (ui w) then 1%nat else 0%nat) /\
  (loading (ui w) = true -> apiKey (ui w) <> []).


(** The property of one whole submission that the conversation grows by the
    user's message followed by a bot message carrying the string [R]. *)
Definition appends_user_then_reply (run_of : State -> run unit) (s : State)
    (R : jsstring) : Prop :=
  exists i1 i2,
    messages (next (run_of s)) =
    messages s ++ [ {| id := i1; text := Some (JStr (input s)); sender := user |};
                    {| id := i2; text := Some (JStr R); sender := bot |} ].

(** The text of a message when it is a string. *)
Definition text_string (m : Message) : option jsstring :=
  match text m with
  | Some (JStr t) => Some t
  | _ => None
  end.

(** ** Sample data *)

(** The seeded conversation with a question typed and a credential set. *)
Definition asking : State := {|
  messages := messages initial;
  input := lit "2+2?";
  loading := false;
  apiKey := lit "secret";
  sidebarOpen := true
|}.

(** The same while an earlier request is pending. *)
Definition busy : State := {|
  messages := messages initial;
  input := lit "2+2?";
  loading := true;
  apiKey := lit "secret";
  sidebarOpen := true
|}.

(** An endpoint that answers every request with the response [r]. *)
Definition answering (r : Response) : Request -> FetchResult :=
  fun _ => Responded r.

Definition reply_4 : Response :=
  {| status := 200; json_body := Parsed (success_body (JStr (lit "4"))) |}.

Definition reply_empty : Response :=
  {| status := 200; json_body := Parsed (success_body (JStr [])) |}.

Definition reply_true : Response :=
  {| status := 200; json_body := Parsed (success_body (JBool true)) |}.

Definition reply_missing : Response :=
  {| status := 200; json_body := Parsed (JObj [ (lit "candidates", JArr []) ]) |}.

Definition quota_exceeded : Response :=
  {| status := 500;
     json_body := Parsed (error_body (JStr (lit "quota exceeded"))) |}.

(** A gateway error page: status 502 with an HTML body, which
    [response.json()] rejects with a SyntaxError. *)
Definition bad_gateway : Response :=
  {| status := 502;
     json_body := BodyRejected
       {| error_name := lit "SyntaxError";
          error_message := lit "Unexpected token < in JSON at position 0" |} |}.

Definition failed_to_fetch : Error :=
  {| error_name := lit "TypeError"; error_message := lit "Failed to fetch" |}.

(** A [Date.now()] reading. *)
Definition t0 : Z := 1700000000000.

(** A state holding nothing but white space in the input box: a space, a
    tab, a no-break space and a line separator. *)
Definition blank_typed : State := {|
  messages := messages initial;
  input := [32; 9; 160; 8232]%N;
  loading := false;
  apiKey := lit "secret";
  sidebarOpen := false
|}.





(** The page after the question was typed, rendered and submitted. *)
Definition waiting_page : Page :=
  replay v8 (opened (Some (lit "secret")))
    (Render :: rendering [TypeInput (lit "2+2?"); Submit t0]).

(** A session that awaits the answer to "2+2?". *)
Definition waiting : Session :=
  play v8 (mounted (Some (lit "secret")))
    [TypeInput (lit "2+2?"); Submit t0].

(** Two exchanges, the second one typed two milliseconds after the first
    reply arrived. *)
Definition two_exchanges : list Event :=
  [ TypeInput (lit "a"); Submit 1000; Settle 0 (Responded reply_4) 1000;
    TypeInput (lit "b"); Submit 1002; Settle 0 (Rejected failed_to_fetch) 1500 ].


(** ** What the markup derives from the state *)

(** [disabled={loading}] of the text input. *)
Definition inputDisabled (s : State) : bool := loading s.

(** [disabled={loading || !input.trim()}] of the send button. *)
Definition sendDisabled (s : State) : bool :=
  loading s || negb (truthy (JStr (trim (input s)))).

(** [{loading && (...)}]: whether the "Thinking..." bubble is rendered. *)
Definition thinkingShown (s : State) : bool := loading s.

(** The status readout of the sidebar: a check mark (U+2713) and
    [Connected] when [apiKey] is truthy, a ballot cross (U+2717) and
    [Not configured] otherwise; both marks are single code units. *)
Definition apiStatus (s : State) : jsstring :=
  if truthy (JStr (apiKey s)) then 10003%N :: lit " Connected"
  else 10007%N :: lit " Not configured".

(** ** Clock readings of a run of events *)

(** The readings of [Date.now()] keep clear of the ids given out so far:
    a submission reads the clock strictly after the largest id in use
    ([bound]), and a settling request reads it at that id or later; the ids
    they give out are the reading and the reading plus one. *)
Fixpoint spaced (bound : Z) (events : list Event) : Prop :=
  match events with
  | [] => True
  | Submit now :: rest => (bound < now)%Z /\ spaced now rest
  | Settle _ _ now :: rest => (bound <= now)%Z /\ spaced (now + 1) rest
  | _ :: rest => spaced bound rest
  end.

(** The ids of a conversation are increasing and none exceeds [bound]. *)
Definition ids_below (bound : Z) (s : State) : Prop :=
  (1 <= bound)%Z /\
  StronglySorted Z.lt (map id (messages s)) /\
  Forall (fun x => (x <= bound)%Z) (map id (messages s)).

(** ** The request body around the input *)

(** What [JSON.stringify] writes before and after the quoted characters of
    the input in the body of [request]. *)
Definition body_prefix : jsstring :=
  lit "{" ++ quote_json_string (lit "contents") ++ lit ":[{"
  ++ quote_json_string (lit "parts") ++ lit ":[{"
  ++ quote_json_string (lit "text") ++ lit ":" ++ [34%N].

Definition body_suffix : jsstring := 34%N :: lit "}]}]}".

(** ** Reading a quoted JSON string back *)

(** The value of a hexadecimal digit, as [JSON.parse] reads it. *)
Definition hex_value (c : code_unit) : option N :=
  if N.leb 48 c && N.leb c 57 then Some (c - 48)%N
  else if N.leb 97 c && N.leb c 102 then Some (c - 87)%N
  else if N.leb 65 c && N.leb c 70 then Some (c - 55)%N
  else None.

Definition hex4_value (a b c d : code_unit) : option code_unit :=
  match hex_value a, hex_value b, hex_value c, hex_value d with
  | Some x3, Some x2, Some x1, Some x0 =>
      Some (4096 * x3 + 256 * x2 + 16 * x1 + x0)%N
  | _, _, _, _ => None
  end.

(** The character a single-letter escape stands for. *)
Definition escape_value (e : code_unit) : option code_unit :=
  if N.eqb e 34 then Some 34%N
  else if N.eqb e 92 then Some 92%N
  else if N.eqb e 47 then Some 47%N
  else if N.eqb e 98 then Some 8%N
  else if N.eqb e 102 then Some 12%N
  else if N.eqb e 110 then Some 10%N
  else if N.eqb e 114 then Some 13%N
  else if N.eqb e 116 then Some 9%N
  else None.

(** The characters between the quotes of a JSON string, as [JSON.parse]
    reads them: escapes are replaced, a raw quote or control character is
    refused. *)
Fixpoint unquote_units (s : jsstring) : option jsstring :=
  match s with
  | [] => Some []
  | c :: r =>
      if N.eqb c 92 then
        match r with
        | [] => None
        | e :: r' =>
            if N.eqb e 117 then
              match r' with
              | h3 :: h2 :: h1 :: h0 :: r'' =>
                  match hex4_value h3 h2 h1 h0, unquote_units r'' with
                  | Some v, Some t => Some (v :: t)
                  | _, _ => None
                  end
              | _ => None
              end
            else
              match escape_value e, unquote_units r' with
              | Some v, Some t => Some (v :: t)
              | _, _ => None
              end
        end
      else if N.eqb c 34 || N.ltb c 32 then None
      else
        match unquote_units r with
        | Some t => Some (c :: t)
        | None => None
        end
  end.

(** ** Strings *)

Unset Implicit Arguments.

Lemma trim_start_nil (s : jsstring) :
  trim_start s = [] <-> forallb is_white s = true.
Proof.
  induction s as [|c r IH]; simpl.
  - tauto.
  - destruct (is_white c); simpl.
    + exact IH.
    + split; discriminate.
Qed.

Lemma trim_start_head (s : jsstring) (c : code_unit) (r : jsstring) :
  trim_start s = c :: r -> is_white c = false.
Proof.
  induction s as [|d t IH]; simpl.
  - discriminate.
  - destruct (is_white d) eqn:W.
    + exact IH.
    + intros E. injection E as -> _. exact W.
Qed.

Lemma forallb_rev {A} (f : A -> bool) (l : list A) :
  forallb f (rev l) = forallb f l.
Proof.
  induction l as [|x l IH]; simpl.
  - reflexivity.
  - rewrite forallb_app, IH. simpl.
    rewrite andb_true_r. apply andb_comm.
Qed.

(** A string trims to the empty string exactly when it holds nothing but
    white space. *)
Lemma trim_blank (s : jsstring) :
  trim s = [] <-> forallb is_white s = true.
Proof.
  unfold trim, trim_end. split.
  - intros E.
    assert (R : trim_start (rev (trim_start s)) = []).
    { destruct (trim_start (rev (trim_start s))) as [|x l] eqn:K.
      - reflexivity.
      - simpl in E. destruct (rev l); discriminate. }
    apply trim_start_nil in R. rewrite forallb_rev in R.
    destruct (trim_start s) as [|c r] eqn:T.
    + apply trim_start_nil. exact T.
    + apply trim_start_head in T. simpl in R. rewrite T in R. discriminate.
  - intros B. apply trim_start_nil in B. rewrite B. reflexivity.
Qed.

Lemma truthy_nonempty (s : jsstring) : s <> [] -> truthy (JStr s) = true.
Proof. destruct s; [congruence | reflexivity]. Qed.

Lemma truthy_string (s : jsstring) : truthy (JStr s) = true -> s <> [].
Proof. destruct s; [discriminate | discriminate]. Qed.

(** ** Reading the response body *)

Lemma null_or_not (data : json) : data = JNull \/ data <> JNull.
Proof. destruct data; (left; reflexivity) || (right; discriminate). Qed.

Section Properties.

Variable engine : Engine.

Lemma member_opt_member (v : value) (k : key) (j : json) :
  opt_member v k = Some j -> member engine v k = Normal (Some j).
Proof.
  destruct v as [[| | | | |]|]; simpl; try discriminate;
    intros ->; reflexivity.
Qed.

Lemma at_path_undefined (p : list key) : at_path None p = None.
Proof. induction p; simpl; auto. Qed.

(** The optional chain of the source reads the value at the reply path,
    unless the body itself is [null]. *)
Lemma reply_probe_at_path (data : json) :
  data <> JNull ->
  reply_probe engine data = Normal (at_path (Some data) reply_path).
Proof.
  intros D. unfold reply_probe, member.
  destruct data; try congruence; reflexivity.
Qed.

Lemma reply_probe_null :
  reply_probe engine JNull =
  Throw {| error_name := lit "TypeError";
           error_message := nullish_read_message engine (Some JNull) (Name (lit "candidates")) |}.
Proof. reflexivity. Qed.

(** Once the optional chain found a value, the plain chain of the next line
    reads the same value and does not throw. *)
Lemma reply_read_at_path (data : json) (j : json) :
  at_path (Some data) reply_path = Some j ->
  reply_read engine data = Normal (Some j).
Proof.
  unfold reply_path, reply_read. cbn [at_path].
  set (k1 := Name (lit "candidates")). set (k3 := Name (lit "content")).
  set (k4 := Name (lit "parts")). set (k6 := Name (lit "text")).
  intros H.
  destruct (opt_member (Some data) k1) as [v1|] eqn:E1;
    [|simpl in H; discriminate].
  destruct (opt_member (Some v1) (Index 0)) as [v2|] eqn:E2;
    [|simpl in H; discriminate].
  destruct (opt_member (Some v2) k3) as [v3|] eqn:E3;
    [|simpl in H; discriminate].
  destruct (opt_member (Some v3) k4) as [v4|] eqn:E4;
    [|simpl in H; discriminate].
  destruct (opt_member (Some v4) (Index 0)) as [v5|] eqn:E5;
    [|simpl in H; discriminate].
  rewrite (member_opt_member _ _ _ E1). unfold and_then.
  rewrite (member_opt_member _ _ _ E2), (member_opt_member _ _ _ E3),
    (member_opt_member _ _ _ E4), (member_opt_member _ _ _ E5).
  apply member_opt_member. exact H.
Qed.

(** ** The entry of [handleSendMessage] *)

Lemma submit_rejected (now : Z) (s : State) :
  loading s = true \/ trim (input s) = [] ->
  handleSendMessage_submit now s =
  {| outcome := Normal None; next := s; effects := [] |}.
Proof.
  intros G. unfold handleSendMessage_submit, bind, render. cbn [outcome next effects].
  destruct G as [L | T].
  - rewrite L, orb_true_r. reflexivity.
  - rewrite T. reflexivity.
Qed.

Lemma submit_missing_key (now : Z) (s : State) :
  trim (input s) <> [] -> loading s = false -> apiKey s = [] ->
  handleSendMessage_submit now s =
  {| outcome := Normal None;
     next := with_messages s (messages s ++ [missing_key_message now]);
     effects := [] |}.
Proof.
  intros T L K. unfold handleSendMessage_submit, bind, render.
  cbn [outcome next effects].
  rewrite (truthy_nonempty _ T), L, K. reflexivity.
Qed.

Lemma submit_accepted (now : Z) (s : State) :
  accepted s ->
  handleSendMessage_submit now s =
  {| outcome := Normal (Some (request (apiKey s) (input s)));
     next := pending_state now s;
     effects := [Fetch (request (apiKey s) (input s))] |}.
Proof.
  intros (T & L & K). unfold handleSendMessage_submit, bind, render.
  cbn [outcome next effects].
  rewrite (truthy_nonempty _ T), (truthy_nonempty _ K), L. reflexivity.
Qed.

(** ** The [try] statement, outcome by outcome *)

Lemma settle_rejected (e : Error) (now : Z) (s : State) :
  handleSendMessage_settle engine (Rejected e) now s = run_failure now s e.
Proof. reflexivity. Qed.

Lemma settle_body_rejected (r : Response) (e : Error) (now : Z) (s : State) :
  json_body r = BodyRejected e ->
  handleSendMessage_settle engine (Responded r) now s = run_failure now s e.
Proof.
  intros B. unfold handleSendMessage_settle, try_catch_finally, bind, await_fetch,
    await_json, ret. cbn [outcome next effects].
  rewrite B. reflexivity.
Qed.

Lemma settle_null_body (r : Response) (now : Z) (s : State) :
  json_body r = Parsed JNull ->
  handleSendMessage_settle engine (Responded r) now s =
  run_failure now s
    {| error_name := lit "TypeError";
       error_message :=
         nullish_read_message engine (Some JNull)
           (Name (if ok r then lit "candidates" else lit "error")) |}.
Proof.
  intros B. unfold handleSendMessage_settle, try_catch_finally, bind, await_fetch,
    await_json, ret. cbn [outcome next effects].
  rewrite B. cbn [outcome next effects].
  destruct (ok r); reflexivity.
Qed.

Lemma settle_not_ok (r : Response) (data : json) (now : Z) (s : State) :
  ok r = false -> json_body r = Parsed data -> data <> JNull ->
  handleSendMessage_settle engine (Responded r) now s =
  run_failure now s
    (raised (new_Error engine
       (or_else (at_path (Some data) error_path) (status_text (status r))))).
Proof.
  intros O B D. unfold handleSendMessage_settle, try_catch_finally, bind,
    await_fetch, await_json, ret. cbn [outcome next effects].
  rewrite B. cbn [outcome next effects]. rewrite O.
  assert (E : member engine (Some data) (Name (lit "error")) =
              Normal (opt_member (Some data) (Name (lit "error"))))
    by (destruct data; try congruence; reflexivity).
  cbn [negb lift]. rewrite E. cbn [lift ret outcome next effects].
  change (opt_member (opt_member (Some data) (Name (lit "error")))
            (Name (lit "message")))
    with (at_path (Some data) error_path).
  change (JStr (lit "API request failed with status " ++ decimal (status r)))
    with (status_text (status r)).
  destruct (new_Error engine
              (or_else (at_path (Some data) error_path) (status_text (status r))));
    reflexivity.
Qed.

Lemma settle_malformed (r : Response) (data : json) (now : Z) (s : State) :
  ok r = true -> json_body r = Parsed data -> data <> JNull ->
  truthy_value (at_path (Some data) reply_path) = false ->
  handleSendMessage_settle engine (Responded r) now s =
  run_failure now s invalid_format.
Proof.
  intros O B D P. unfold handleSendMessage_settle, try_catch_finally, bind,
    await_fetch, await_json, ret. cbn [outcome next effects].
  rewrite B. cbn [outcome next effects]. rewrite O.
  cbn [negb lift ret outcome next effects].
  rewrite (reply_probe_at_path _ D). cbn [lift ret outcome next effects].
  rewrite P. reflexivity.
Qed.

Lemma settle_reply (r : Response) (data j : json) (now : Z) (s : State) :
  ok r = true -> json_body r = Parsed data ->
  at_path (Some data) reply_path = Some j -> truthy j = true ->
  handleSendMessage_settle engine (Responded r) now s = run_reply now s (Some j).
Proof.
  intros O B P V.
  assert (D : data <> JNull).
  { intros ->. discriminate P. }
  unfold handleSendMessage_settle, try_catch_finally, bind,
    await_fetch, await_json, ret. cbn [outcome next effects].
  rewrite B. cbn [outcome next effects]. rewrite O.
  cbn [negb lift ret outcome next effects].
  rewrite (reply_probe_at_path _ D). cbn [lift ret outcome next effects].
  rewrite P. cbn [truthy_value]. rewrite V.
  rewrite (reply_read_at_path _ _ P). reflexivity.
Qed.

(** Every outcome is one of the two runs: a reply when [replied], otherwise
    a caught error. *)
Lemma settle_cases (result : FetchResult) (now : Z) (s : State) :
  (replied result = true /\
   exists j, truthy j = true /\
     handleSendMessage_settle engine result now s = run_reply now s (Some j)) \/
  (replied result = false /\
   exists e, handleSendMessage_settle engine result now s = run_failure now s e).
Proof.
  destruct result as [r | e].
  - destruct (json_body r) as [data | e] eqn:B.
    + destruct (null_or_not data) as [-> | D].
      { right. split.
        - unfold replied. rewrite B. apply andb_false_r.
        - eexists. apply settle_null_body. exact B. }
      destruct (ok r) eqn:O.
      * destruct (at_path (Some data) reply_path) as [j|] eqn:P;
          [destruct (truthy j) eqn:V|].
        -- left. split.
           ++ unfold replied. rewrite B, O, P. exact V.
           ++ exists j. split; [exact V|].
              apply (settle_reply r data j now s O B P V).
        -- right. split.
           ++ unfold replied. rewrite B, O, P. exact V.
           ++ eexists. apply (settle_malformed r data now s O B D).
              rewrite P. exact V.
        -- right. split.
           ++ unfold replied. rewrite B, O, P. reflexivity.
           ++ eexists. apply (settle_malformed r data now s O B D).
              rewrite P. reflexivity.
      * right. split.
        -- unfold replied. rewrite O. reflexivity.
        -- eexists. apply (settle_not_ok r data now s O B D).
    + right. split.
      * unfold replied. rewrite B. apply andb_false_r.
      * exists e. apply settle_body_rejected. exact B.
  - right. split; [reflexivity|]. exists e. apply settle_rejected.
Qed.

(** ** Whole calls *)


Lemma handleSendMessage_missing_key (now1 now2 : Z)
    (net : Request -> FetchResult) (s : State) :
  trim (input s) <> [] -> loading s = false -> apiKey s = [] ->
  handleSendMessage engine now1 net now2 s =
  {| outcome := Normal tt;
     next := with_messages s (messages s ++ [missing_key_message now1]);
     effects := [] |}.
Proof.
  intros T L K. unfold handleSendMessage, bind.
  rewrite (submit_missing_key now1 s T L K). reflexivity.
Qed.

Lemma handleSendMessage_accepted (now1 now2 : Z)
    (net : Request -> FetchResult) (s : State) :
  accepted s ->
  let req := request (apiKey s) (input s) in
  let r := handleSendMessage_settle engine (net req) now2 (pending_state now1 s) in
  handleSendMessage engine now1 net now2 s =
  {| outcome := outcome r; next := next r; effects := Fetch req :: effects r |}.
Proof.
  intros A req r. unfold handleSendMessage, bind.
  rewrite (submit_accepted now1 s A). fold req. fold r.
  destruct r as [o n l]. reflexivity.
Qed.

(** ** The session invariant *)

Lemma remove_nth_length {A} (i : nat) (l : list A) :
  (i < List.length l)%nat ->
  List.length (remove_nth i l) = pred (List.length l).
Proof.
  revert i. induction l as [|x l IH]; intros i Hi; simpl in *.
  - lia.
  - destruct i as [|j]; simpl.
    + reflexivity.
    + rewrite IH by lia. destruct l; simpl in *; lia.
Qed.

Lemma mounted_invariant (envKey : option jsstring) :
  session_invariant (mounted envKey).
Proof.
  destruct envKey as [[|c k]|]; split; simpl; (reflexivity || discriminate).
Qed.

Lemma step_invariant (w : Session) (e : Event) :
  session_invariant w -> session_invariant (step engine w e).
Proof.
  intros [Hn Hk]. unfold session_invariant.
  destruct e as [now | i result now | v | | ]; unfold step.
  - destruct (loading (ui w)) eqn:L.
    + rewrite (submit_rejected now (ui w) (or_introl L)). simpl.
      rewrite L. split; assumption.
    + destruct (trim (input (ui w))) as [|c t] eqn:T.
      * rewrite (submit_rejected now (ui w) (or_intror T)). simpl.
        rewrite L. split; assumption.
      * assert (T' : trim (input (ui w)) <> []) by (rewrite T; discriminate).
        destruct (apiKey (ui w)) as [|d k] eqn:K.
        -- rewrite (submit_missing_key now (ui w) T' L K). simpl.
           rewrite L. split; [assumption | discriminate].
        -- assert (A : accepted (ui w)).
           { repeat split; [exact T' | exact L | rewrite K; discriminate]. }
           rewrite (submit_accepted now (ui w) A). simpl.
           rewrite length_app, Hn. split; [reflexivity|].
           intros _. rewrite K. discriminate.
  - destruct (nth_error (in_flight w) i) as [req|] eqn:E.
    + assert (Hi : (i < List.length (in_flight w))%nat).
      { apply nth_error_Some. rewrite E. discriminate. }
      assert (Hl : loading (next (handleSendMessage_settle engine result now (ui w))) = false).
      { destruct (settle_cases result now (ui w)) as [(_ & j & _ & ->) | (_ & x & ->)];
          reflexivity. }
      simpl. rewrite Hl, (remove_nth_length _ _ Hi). split.
      * destruct (loading (ui w)); rewrite Hn in *; [reflexivity | lia].
      * discriminate.
    + split; assumption.
  - split; assumption.
  - split; assumption.
  - split; assumption.
Qed.

Lemma play_invariant (events : list Event) (w : Session) :
  session_invariant w -> session_invariant (play engine w events).
Proof.
  revert w. induction events as [|e events IH]; intros w Hw; simpl.
  - exact Hw.
  - apply IH, step_invariant, Hw.
Qed.

Lemma reachable_invariant (w : Session) :
  reachable engine w -> session_invariant w.
Proof.
  intros (envKey & events & ->). apply play_invariant, mounted_invariant.
Qed.

(** ** Properties of the handlers *)

(** C1 (amended): for an accepted submission (input non-empty after
    trimming, not awaiting a response, credential configured) answered by a
    2xx response whose body holds a non-empty string [R] at
    [candidates[0].content.parts[0].text], one whole call appends exactly
    the user's message with the raw input and then the bot message with
    [R], leaves the earlier messages as they were, and ends with the
    awaiting-response flag cleared. *)
Theorem C1_submit_appends_user_then_reply
    (s : State) (now1 now2 : Z) (net : Request -> FetchResult)
    (r : Response) (data : json) (R : jsstring) :
  accepted s ->
  net (request (apiKey s) (input s)) = Responded r ->
  ok r = true ->
  json_body r = Parsed data ->
  at_path (Some data) reply_path = Some (JStr R) ->
  R <> [] ->
  messages (next (handleSendMessage engine now1 net now2 s)) =
    messages s ++
    [ {| id := now1; text := Some (JStr (input s)); sender := user |};
      {| id := now2 + 1; text := Some (JStr R); sender := bot |} ] /\
  loading (next (handleSendMessage engine now1 net now2 s)) = false /\
  outcome (handleSendMessage engine now1 net now2 s) = Normal tt.
Proof.
  intros A N O B P NE.
  rewrite (handleSendMessage_accepted now1 now2 net s A). cbn [outcome next].
  rewrite N, (settle_reply r data (JStr R) now2 (pending_state now1 s) O B P
                (truthy_nonempty R NE)).
  unfold run_reply, settled_state, pending_state, bot_message, user_message.
  cbn [outcome next messages loading].
  rewrite <- app_assoc. repeat split.
Qed.

(** C3: in a reachable session with no credential configured, submitting an
    input that is non-empty after trimming appends exactly one message, the
    bot-sender error text, and performs no effect at all, in particular no
    network call. *)
Theorem C3_missing_credential_reports_locally
    (w : Session) (now1 now2 : Z) (net : Request -> FetchResult) :
  reachable engine w ->
  trim (input (ui w)) <> [] ->
  apiKey (ui w) = [] ->
  messages (next (handleSendMessage engine now1 net now2 (ui w))) =
    messages (ui w) ++
    [ {| id := now1;
         text := Some (JStr (lit
           "Error: API key not configured. Please check your .env file."));
         sender := bot |} ] /\
  effects (handleSendMessage engine now1 net now2 (ui w)) = [] /\
  in_flight (step engine w (Submit now1)) = in_flight w.
Proof.
  intros Hw T K.
  assert (L : loading (ui w) = false).
  { destruct (reachable_invariant w Hw) as [_ Hk].
    destruct (loading (ui w)); [|reflexivity].
    exfalso. apply Hk; [reflexivity | exact K]. }
  rewrite (handleSendMessage_missing_key now1 now2 net (ui w) T L K).
  unfold step. rewrite (submit_missing_key now1 (ui w) T L K).
  repeat split.
Qed.


(** C5: whatever the conversation holds, [clearChat] leaves exactly the
    seeded greeting as the message list and the sidebar closed, keeps the
    other cells, completes normally and performs no effect. *)
Theorem C5_clearChat_restores_greeting (s : State) :
  clearChat s =
    {| outcome := Normal tt;
       next := {| messages :=
                    [ {| id := 1;
                         text := Some (JStr (lit
                           "Hello! I'm FaskerAI. How can I help you today?"));
                         sender := bot |} ];
                  input := input s;
                  loading := loading s;
                  apiKey := apiKey s;
                  sidebarOpen := false |};
       effects := [] |} /\
  messages (next (clearChat s)) = messages initial.
Proof. split; reflexivity. Qed.

(** A response outside 200..299 whose body parsed to a value other than
    [null] is reported with what [new Error] makes of the body's
    [error.message] when that is truthy, and of the status text otherwise:
    the value converted to a string, or the TypeError of the conversion. *)
Lemma non_success_surfaces_message_or_status
    (s : State) (now1 now2 : Z) (net : Request -> FetchResult)
    (r : Response) (data : json) :
  accepted s ->
  net (request (apiKey s) (input s)) = Responded r ->
  ok r = false ->
  json_body r = Parsed data ->
  data <> JNull ->
  messages (next (handleSendMessage engine now1 net now2 s)) =
    messages s ++
    [ user_message now1 s;
      bot_message now2
        (apology (error_message (raised (new_Error engine
           (or_else (at_path (Some data) error_path)
              (status_text (status r))))))) ].
Proof.
  intros A N O B D.
  rewrite (handleSendMessage_accepted now1 now2 net s A). cbn [next].
  rewrite N, (settle_not_ok r data now2 (pending_state now1 s) O B D).
  unfold run_failure, settled_state, pending_state. cbn [next messages].
  rewrite <- app_assoc. reflexivity.
Qed.

(** C7 (amended): for an accepted submission answered by a 2xx response
    whose body parsed to a value other than [null] and holds nothing truthy
    at [candidates[0].content.parts[0].text] (the value is absent, [null],
    [false], [0] or the empty string), one whole call appends after the
    user's message the bot message
    ["Sorry, I encountered an error: Invalid response format from API"]. *)
Theorem C7_malformed_success_body_reported
    (s : State) (now1 now2 : Z) (net : Request -> FetchResult)
    (r : Response) (data : json) :
  accepted s ->
  net (request (apiKey s) (input s)) = Responded r ->
  ok r = true ->
  json_body r = Parsed data ->
  data <> JNull ->
  truthy_value (at_path (Some data) reply_path) = false ->
  messages (next (handleSendMessage engine now1 net now2 s)) =
    messages s ++
    [ {| id := now1; text := Some (JStr (input s)); sender := user |};
      {| id := now2 + 1;
         text := Some (JStr (lit
           "Sorry, I encountered an error: Invalid response format from API"));
         sender := bot |} ] /\
  loading (next (handleSendMessage engine now1 net now2 s)) = false.
Proof.
  intros A N O B D P.
  rewrite (handleSendMessage_accepted now1 now2 net s A). cbn [next].
  rewrite N, (settle_malformed r data now2 (pending_state now1 s) O B D P).
  unfold run_failure, settled_state, pending_state. cbn [next messages loading].
  rewrite <- app_assoc. split; reflexivity.
Qed.

(** C8: an accepted submission performs exactly one [fetch], in the event
    handler itself and none afterwards; it is a POST with a JSON content
    type to the fixed [generateContent] address of the generative language
    service, followed by [?key=] and the credential as it is; its body is
    the serialised object [{contents: [{parts: [{text: input}]}]}] with
    the raw input; two accepted submissions with the same input and
    credential send the same request whatever their message lists hold. *)
Theorem C8_one_post_carrying_only_the_input
    (s s' : State) (now1 now2 : Z) (net : Request -> FetchResult) :
  accepted s ->
  effects (handleSendMessage_submit now1 s) =
    [Fetch (request (apiKey s) (input s))] /\
  filter is_fetch (effects (handleSendMessage engine now1 net now2 s)) =
    [Fetch (request (apiKey s) (input s))] /\
  method (request (apiKey s) (input s)) = lit "POST" /\
  headers (request (apiKey s) (input s)) =
    [ (lit "Content-Type", lit "application/json") ] /\
  url (request (apiKey s) (input s)) =
    lit "https://generativelanguage.googleapis.com/v1beta/models/gemini-2.5-flash:generateContent"
    ++ lit "?key=" ++ apiKey s /\
  body (request (apiKey s) (input s)) =
    JSON_stringify
      (JObj [ (lit "contents",
               JArr [ JObj [ (lit "parts",
                              JArr [ JObj [ (lit "text", JStr (input s)) ] ]) ] ]) ]) /\
  (accepted s' -> input s' = input s -> apiKey s' = apiKey s ->
   effects (handleSendMessage_submit now1 s') =
   effects (handleSendMessage_submit now1 s)).
Proof.
  intros A. rewrite (submit_accepted now1 s A).
  rewrite (handleSendMessage_accepted now1 now2 net s A). cbn [effects].
  split; [reflexivity|]. split.
  - cbn [filter is_fetch]. f_equal.
    destruct (settle_cases (net (request (apiKey s) (input s))) now2
                (pending_state now1 s)) as [(_ & j & _ & E) | (_ & e & E)];
      rewrite E; reflexivity.
  - repeat split.
    intros A' Ei Ek. rewrite (submit_accepted now1 s' A'), Ei, Ek. reflexivity.
Qed.

(** C10: on the missing-credential path (input non-empty after trimming,
    no response awaited, no credential) the pending input, the
    awaiting-response flag, the sidebar flag and the credential are the
    same after the call as before it. *)
Theorem C10_missing_credential_keeps_other_cells
    (s : State) (now1 now2 : Z) (net : Request -> FetchResult) :
  trim (input s) <> [] ->
  loading s = false ->
  apiKey s = [] ->
  input (next (handleSendMessage engine now1 net now2 s)) = input s /\
  loading (next (handleSendMessage engine now1 net now2 s)) = loading s /\
  sidebarOpen (next (handleSendMessage engine now1 net now2 s)) = sidebarOpen s /\
  apiKey (next (handleSendMessage engine now1 net now2 s)) = apiKey s.
Proof.
  intros T L K.
  rewrite (handleSendMessage_missing_key now1 now2 net s T L K).
  repeat split.
Qed.

End Properties.

(** ** Concrete runs *)

Lemma asking_accepted : accepted asking.
Proof. repeat split; vm_compute; discriminate. Qed.

(** The first example of the specification: the seeded conversation, the
    question "2+2?" and the reply "4". *)
Lemma C1_witness :
  accepted asking /\
  messages (next (handleSendMessage v8 t0
                    (answering reply_4) (t0 + 850) asking)) =
    messages asking ++
    [ {| id := t0; text := Some (JStr (input asking)); sender := user |};
      {| id := t0 + 850 + 1; text := Some (JStr (lit "4")); sender := bot |} ] /\
  loading (next (handleSendMessage v8 t0
                   (answering reply_4) (t0 + 850) asking)) = false /\
  outcome (handleSendMessage v8 t0
             (answering reply_4) (t0 + 850) asking) = Normal tt.
Proof.
  split.
  - repeat split; vm_compute; discriminate.
  - apply (C1_submit_appends_user_then_reply v8 asking t0
             (t0 + 850) (answering reply_4) reply_4
             (success_body (JStr (lit "4"))) (lit "4")).
    + repeat split; vm_compute; discriminate.
    + reflexivity.
    + reflexivity.
    + reflexivity.
    + reflexivity.
    + discriminate.
Defined.

(** C1 as stated fails for the empty reply string: the body holds the string
    [""] at the reply path, the response is a 2xx one and the submission is
    accepted, yet the bot message appended is the "invalid response format"
    apology, not a message with the reply as its text. *)
Lemma C1_empty_reply_counterexample :
  accepted asking /\
  ok reply_empty = true /\
  json_body reply_empty = Parsed (success_body (JStr [])) /\
  at_path (Some (success_body (JStr []))) reply_path = Some (JStr []) /\
  ~ appends_user_then_reply
      (handleSendMessage v8 t0 (answering reply_empty)
         (t0 + 850))
      asking [].
Proof.
  split; [exact asking_accepted|].
  split; [reflexivity|]. split; [reflexivity|]. split; [reflexivity|].
  intros (i1 & i2 & H). vm_compute in H. discriminate H.
Qed.


Lemma C3_witness :
  reachable v8
    (play v8 (mounted None) [TypeInput (lit "hi")]) /\
  effects (handleSendMessage v8 t0 (answering reply_4)
             (t0 + 850)
             (ui (play v8 (mounted None)
                    [TypeInput (lit "hi")]))) = [].
Proof.
  split.
  - exists None, [TypeInput (lit "hi")]. reflexivity.
  - apply (C3_missing_credential_reports_locally v8
             (play v8 (mounted None) [TypeInput (lit "hi")])
             t0 (t0 + 850) (answering reply_4)).
    + exists None, [TypeInput (lit "hi")]. reflexivity.
    + vm_compute. discriminate.
    + reflexivity.
Defined.



(** The second example of the specification: status 500 with the body
    [{error: {message: "quota exceeded"}}]. *)
Lemma quota_exceeded_example :
  messages (next (handleSendMessage v8 t0
                    (answering quota_exceeded) (t0 + 850) asking)) =
    messages asking ++
    [ user_message t0 asking;
      bot_message (t0 + 850)
        (Some (JStr (lit "Sorry, I encountered an error: quota exceeded"))) ] /\
  includes (lit "Sorry, I encountered an error: quota exceeded")
    (lit "quota exceeded") = true.
Proof. split; reflexivity. Qed.

(** C6: for the 502 response whose body is not JSON the message appended is
    the apology around the parser's SyntaxError; neither an error message of
    the body nor the status code 502 appears in it. *)
Theorem C6_unparseable_error_body_hides_status :
  ok bad_gateway = false /\
  messages (next (handleSendMessage v8 t0
                    (answering bad_gateway) (t0 + 850) asking)) =
    messages asking ++
    [ user_message t0 asking;
      bot_message (t0 + 850)
        (Some (JStr (lit
          "Sorry, I encountered an error: Unexpected token < in JSON at position 0"))) ] /\
  includes
    (lit "Sorry, I encountered an error: Unexpected token < in JSON at position 0")
    (decimal (status bad_gateway)) = false.
Proof. repeat split; reflexivity. Qed.

Lemma C7_witness :
  accepted asking /\
  truthy_value
    (at_path (Some (JObj [ (lit "candidates", JArr []) ])) reply_path) = false /\
  messages (next (handleSendMessage v8 t0
                    (answering reply_missing) (t0 + 850) asking)) =
    messages asking ++
    [ {| id := t0; text := Some (JStr (input asking)); sender := user |};
      {| id := t0 + 850 + 1;
         text := Some (JStr (lit
           "Sorry, I encountered an error: Invalid response format from API"));
         sender := bot |} ] /\
  loading (next (handleSendMessage v8 t0
                   (answering reply_missing) (t0 + 850) asking)) = false.
Proof.
  split; [repeat split; vm_compute; discriminate|].
  split; [reflexivity|].
  apply (C7_malformed_success_body_reported v8 asking t0
           (t0 + 850) (answering reply_missing) reply_missing
           (JObj [ (lit "candidates", JArr []) ])).
  - repeat split; vm_compute; discriminate.
  - reflexivity.
  - reflexivity.
  - reflexivity.
  - discriminate.
  - reflexivity.
Defined.

(** C7 as stated fails for a body whose value at the reply path is truthy
    but not a string: for [text: true] in a 2xx response the body lacks a
    reply string, yet the value [true] is appended as the reply and no
    message mentions an invalid response format. *)
Lemma C7_truthy_non_string_counterexample :
  accepted asking /\
  ok reply_true = true /\
  json_body reply_true = Parsed (success_body (JBool true)) /\
  (forall R, at_path (Some (success_body (JBool true))) reply_path
             <> Some (JStr R)) /\
  messages (next (handleSendMessage v8 t0
                    (answering reply_true) (t0 + 850) asking)) =
    messages asking ++
    [ user_message t0 asking; bot_message (t0 + 850) (Some (JBool true)) ] /\
  existsb
    (fun m => match text_string m with
              | Some t => includes t (lit "Invalid response format")
              | None => false
              end)
    (messages (next (handleSendMessage v8 t0
                       (answering reply_true) (t0 + 850) asking))) = false.
Proof.
  split; [exact asking_accepted|].
  split; [reflexivity|]. split; [reflexivity|].
  split; [intros R; vm_compute; discriminate|].
  split; reflexivity.
Qed.

Lemma C8_witness :
  accepted asking /\
  filter is_fetch
    (effects (handleSendMessage v8 t0 (answering reply_4) (t0 + 850) asking)) =
    [Fetch (request (apiKey asking) (input asking))] /\
  url (request (apiKey asking) (input asking)) =
    lit "https://generativelanguage.googleapis.com/v1beta/models/gemini-2.5-flash:generateContent?key=secret" /\
  body (request (apiKey asking) (input asking)) =
    lit "{" ++ [34%N] ++ lit "contents" ++ [34%N] ++ lit ":[{"
    ++ [34%N] ++ lit "parts" ++ [34%N] ++ lit ":[{"
    ++ [34%N] ++ lit "text" ++ [34%N] ++ lit ":"
    ++ [34%N] ++ lit "2+2?" ++ [34%N] ++ lit "}]}]}".
Proof.
  split; [repeat split; vm_compute; discriminate|].
  destruct (C8_one_post_carrying_only_the_input v8
              asking busy t0 (t0 + 850) (answering reply_4))
    as (_ & H & _ & _ & Hu & Hb & _).
  - repeat split; vm_compute; discriminate.
  - split; [exact H|]. split; [exact Hu | exact Hb].
Defined.

(** C9: with no credential configured, a typed input submitted twice while
    [Date.now()] gives the same reading (two events within one millisecond,
    or the Enter key held down in a browser that coarsens the clock) appends
    two messages carrying the same id, in a reachable session. *)
Theorem C9_same_millisecond_ids_collide :
  reachable v8
    (play v8 (mounted None)
       [TypeInput (lit "hi"); Submit t0; Submit t0]) /\
  map id (messages (ui (play v8 (mounted None)
                          [TypeInput (lit "hi"); Submit t0; Submit t0]))) =
    [1%Z; t0; t0] /\
  ~ NoDup (map id (messages (ui (play v8 (mounted None)
                                   [TypeInput (lit "hi"); Submit t0; Submit t0])))).
Proof.
  split; [exists None; eexists; reflexivity|].
  split; [reflexivity|].
  intros H. change (NoDup [1%Z; t0; t0]) in H.
  inversion H as [|x l _ H1]; subst. inversion H1 as [|y l' Hn _]; subst.
  apply Hn. left. reflexivity.
Qed.

(** The id of a reply is the reading of the clock plus one, so a submission
    made at the next millisecond reuses it. *)
Lemma reply_id_reused_by_next_submission :
  map id (messages (ui (play v8 (mounted (Some (lit "secret")))
                          [ TypeInput (lit "a"); Submit 1000;
                            Settle 0 (Responded reply_4) 1000;
                            TypeInput (lit "b"); Submit 1001 ]))) =
    [1; 1000; 1001; 1001]%Z.
Proof. reflexivity. Qed.

Lemma C10_witness :
  trim (input (ui (play v8 (mounted None)
                     [TypeInput (lit "hi")]))) <> [] /\
  input (next (handleSendMessage v8 t0 (answering reply_4)
                 (t0 + 850)
                 (ui (play v8 (mounted None)
                        [TypeInput (lit "hi")])))) = lit "hi".
Proof.
  split; [vm_compute; discriminate|].
  apply (C10_missing_credential_keeps_other_cells v8
           (ui (play v8 (mounted None) [TypeInput (lit "hi")]))
           t0 (t0 + 850) (answering reply_4)).
  - vm_compute. discriminate.
  - reflexivity.
  - reflexivity.
Defined.

(** ** Sessions: what holds along every run of events *)

Section Sessions.

Variable engine : Engine.

(** The entry of [handleSendMessage] takes one of three paths. *)
Lemma submit_cases (now : Z) (s : State) :
  ((loading s = true \/ trim (input s) = []) /\
   handleSendMessage_submit now s =
     {| outcome := Normal None; next := s; effects := [] |}) \/
  ((trim (input s) <> [] /\ loading s = false /\ apiKey s = []) /\
   handleSendMessage_submit now s =
     {| outcome := Normal None;
        next := with_messages s (messages s ++ [missing_key_message now]);
        effects := [] |}) \/
  (accepted s /\
   handleSendMessage_submit now s =
     {| outcome := Normal (Some (request (apiKey s) (input s)));
        next := pending_state now s;
        effects := [Fetch (request (apiKey s) (input s))] |}).
Proof.
  destruct (loading s) eqn:L.
  { left. split; [left; reflexivity|]. apply submit_rejected. left. exact L. }
  destruct (trim (input s)) as [|c t] eqn:T.
  { left. split; [right; reflexivity|]. apply submit_rejected. right. exact T. }
  assert (T' : trim (input s) <> []) by (rewrite T; discriminate).
  rewrite <- T.
  destruct (apiKey s) as [|d k] eqn:K.
  - right. left. split; [repeat split; assumption|].
    apply submit_missing_key; assumption.
  - right. right.
    assert (A : accepted s).
    { repeat split; [exact T' | exact L | rewrite K; discriminate]. }
    split; [exact A|]. rewrite <- K. apply submit_accepted. exact A.
Qed.

(** The [try] statement always completes normally, appends one bot message
    whose id is the clock reading plus one, and clears [loading]. *)
Lemma settle_shape (result : FetchResult) (now : Z) (s : State) :
  exists v,
    outcome (handleSendMessage_settle engine result now s) = Normal tt /\
    next (handleSendMessage_settle engine result now s) =
      settled_state s (bot_message now v).
Proof.
  destruct (settle_cases engine result now s) as [(_ & j & _ & E) | (_ & e & E)];
    rewrite E; eexists; split; reflexivity.
Qed.

Lemma step_apiKey (w : Session) (e : Event) :
  apiKey (ui (step engine w e)) = apiKey (ui w).
Proof.
  destruct e as [now | i result now | v | | ]; unfold step.
  - destruct (submit_cases now (ui w)) as [(_ & E) | [(_ & E) | (_ & E)]];
      rewrite E; reflexivity.
  - destruct (nth_error (in_flight w) i); [|reflexivity].
    destruct (settle_shape result now (ui w)) as (v & _ & E).
    cbn [ui]. rewrite E. reflexivity.
  - reflexivity.
  - reflexivity.
  - reflexivity.
Qed.

Lemma play_apiKey (events : list Event) (w : Session) :
  apiKey (ui (play engine w events)) = apiKey (ui w).
Proof.
  revert w. induction events as [|e events IH]; intros w; simpl.
  - reflexivity.
  - rewrite IH. apply step_apiKey.
Qed.

(** X1: the credential is decided once, when the component mounts: along
    every run of events [apiKey] is the environment's key when that is a
    non-empty string and the empty string otherwise (a missing key and an
    empty key are treated alike), and the status readout follows it. *)
Theorem X1_credential_fixed_at_mount
    (envKey : option jsstring) (events : list Event) :
  apiKey (ui (play engine (mounted envKey) events)) =
    match envKey with
    | Some k => k
    | None => []
    end /\
  apiStatus (ui (play engine (mounted envKey) events)) =
    match envKey with
    | Some (_ :: _) => 10003%N :: lit " Connected"
    | _ => 10007%N :: lit " Not configured"
    end.
Proof.
  assert (E : apiKey (ui (play engine (mounted envKey) events)) =
              match envKey with Some k => k | None => [] end).
  { rewrite play_apiKey. destruct envKey as [[|c k]|]; reflexivity. }
  split; [exact E|].
  unfold apiStatus. rewrite E. destruct envKey as [[|c k]|]; reflexivity.
Qed.

Lemma step_without_key (w : Session) (e : Event) :
  apiKey (ui w) = [] -> loading (ui w) = false -> in_flight w = [] ->
  loading (ui (step engine w e)) = false /\ in_flight (step engine w e) = [].
Proof.
  intros K L F. destruct e as [now | i result now | v | | ]; unfold step.
  - destruct (submit_cases now (ui w)) as [(_ & E) | [(_ & E) | ((_ & _ & A) & _)]].
    + rewrite E. split; assumption.
    + rewrite E. split; assumption.
    + contradiction.
  - rewrite F. destruct i; split; assumption.
  - split; assumption.
  - split; assumption.
  - split; assumption.
Qed.

(** X2: a component mounted without a key (missing or empty) never issues a
    request: whatever the user does, no request is ever pending and the
    awaiting-response flag is never set. *)
Theorem X2_no_request_without_credential
    (envKey : option jsstring) (events : list Event) :
  envKey = None \/ envKey = Some [] ->
  in_flight (play engine (mounted envKey) events) = [] /\
  loading (ui (play engine (mounted envKey) events)) = false /\
  apiKey (ui (play engine (mounted envKey) events)) = [].
Proof.
  intros H.
  assert (G : forall evs w,
             apiKey (ui w) = [] -> loading (ui w) = false -> in_flight w = [] ->
             in_flight (play engine w evs) = [] /\
             loading (ui (play engine w evs)) = false /\
             apiKey (ui (play engine w evs)) = []).
  { induction evs as [|e evs IH]; intros w K L F; simpl.
    - repeat split; assumption.
    - destruct (step_without_key w e K L F) as [L' F'].
      apply IH; [rewrite step_apiKey; exact K | exact L' | exact F']. }
  apply G; destruct H as [-> | ->]; reflexivity.
Qed.

Lemma step_head (w : Session) (e : Event) (rest : list Message) :
  messages (ui w) = messages initial ++ rest ->
  exists rest', messages (ui (step engine w e)) = messages initial ++ rest'.
Proof.
  intros H. destruct e as [now | i result now | v | | ]; unfold step.
  - destruct (submit_cases now (ui w)) as [(_ & E) | [(_ & E) | (_ & E)]];
      rewrite E; cbn [ui next with_messages pending_state messages].
    + exists rest. exact H.
    + rewrite H, <- app_assoc. eexists. reflexivity.
    + rewrite H, <- app_assoc. eexists. reflexivity.
  - destruct (nth_error (in_flight w) i); [|exists rest; exact H].
    destruct (settle_shape result now (ui w)) as (v & _ & E).
    cbn [ui]. rewrite E. cbn [settled_state messages].
    rewrite H, <- app_assoc. eexists. reflexivity.
  - exists rest. exact H.
  - exists []. reflexivity.
  - exists rest. exact H.
Qed.

(** X3: in every reachable session the conversation starts with the seeded
    greeting: the list is never empty and its first message is the bot
    greeting with id 1. *)
Theorem X3_conversation_starts_with_greeting (w : Session) :
  reachable engine w ->
  exists rest,
    messages (ui w) =
      {| id := 1;
         text := Some (JStr (lit "Hello! I'm FaskerAI. How can I help you today?"));
         sender := bot |} :: rest.
Proof.
  intros (envKey & events & ->).
  assert (G : forall evs w rest,
             messages (ui w) = messages initial ++ rest ->
             exists rest', messages (ui (play engine w evs)) = messages initial ++ rest').
  { induction evs as [|e evs IH]; intros w rest H; simpl.
    - exists rest. exact H.
    - destruct (step_head w e rest H) as (rest' & H'). apply (IH _ rest' H'). }
  destruct (G events (mounted envKey) []) as (rest & H).
  - destruct envKey as [[|c k]|]; reflexivity.
  - exists rest. exact H.
Qed.

(** X4: no event removes or rewrites a single message: "New Chat" replaces
    the whole list by the seeded greeting, and every other event keeps the
    list as it is or appends one message to it. *)
Theorem X4_messages_only_appended_or_reset (w : Session) (e : Event) :
  match e with
  | NewChat => messages (ui (step engine w e)) = messages initial
  | _ =>
      messages (ui (step engine w e)) = messages (ui w) \/
      exists m, messages (ui (step engine w e)) = messages (ui w) ++ [m]
  end.
Proof.
  destruct e as [now | i result now | v | | ]; unfold step.
  - destruct (submit_cases now (ui w)) as [(_ & E) | [(_ & E) | (_ & E)]];
      rewrite E; cbn [ui next with_messages pending_state messages].
    + left. reflexivity.
    + right. eexists. reflexivity.
    + right. eexists. reflexivity.
  - destruct (nth_error (in_flight w) i); [|left; reflexivity].
    destruct (settle_shape result now (ui w)) as (v & _ & E).
    cbn [ui]. rewrite E. right. eexists. reflexivity.
  - left. reflexivity.
  - reflexivity.
  - left. reflexivity.
Qed.

(** *** Sessions are pages that render after every event *)

Lemma submit_of_self (now : Z) (s : State) :
  handleSendMessage_submit now s = handleSendMessage_submit_of s now s.
Proof.
  unfold handleSendMessage_submit, handleSendMessage_submit_of, bind, render.
  cbn [outcome next effects].
  destruct (negb (truthy (JStr (trim (input s)))) || loading s); [reflexivity|].
  destruct (negb (truthy (JStr (apiKey s)))); reflexivity.
Qed.

Lemma act_render_step (w : Session) (e : Event) :
  act engine (act engine (page_of w) (Dispatch e)) Render =
  page_of (step engine w e).
Proof.
  destruct e as [now | i result now | v | | ]; unfold step, act, page_of;
    cbn [current view awaiting ui in_flight].
  - rewrite submit_of_self. reflexivity.
  - destruct (nth_error (in_flight w) i); reflexivity.
  - reflexivity.
  - reflexivity.
  - reflexivity.
Qed.

Lemma replay_rendering (events : list Event) (w : Session) :
  replay engine (page_of w) (rendering events) =
  page_of (play engine w events).
Proof.
  revert w. induction events as [|e events IH]; intros w.
  - reflexivity.
  - change (replay engine (page_of w) (rendering (e :: events)))
      with (replay engine
              (act engine (act engine (page_of w) (Dispatch e)) Render)
              (rendering events)).
    rewrite act_render_step. apply IH.
Qed.

Lemma opened_rendered (envKey : option jsstring) :
  act engine (opened envKey) Render = page_of (mounted envKey).
Proof. reflexivity. Qed.

Lemma rendered_page_is_session (p : Page) :
  rendered_after_every_event engine p ->
  exists w, reachable engine w /\ p = page_of w.
Proof.
  intros (envKey & events & ->).
  exists (play engine (mounted envKey) events). split.
  - exists envKey, events. reflexivity.
  - change (replay engine (opened envKey) (Render :: rendering events))
      with (replay engine (act engine (opened envKey) Render) (rendering events)).
    rewrite opened_rendered. apply replay_rendering.
Qed.

(** X5: when the component renders again after the mount effect and after
    every event, the awaiting-response flag tells exactly whether a request
    is pending: when it is set there is one pending request, the
    "Thinking..." bubble is shown and the input and the send button are
    disabled; when it is clear nothing is pending and the input is
    enabled. *)
Theorem X5_loading_tells_pending_request (p : Page) :
  rendered_after_every_event engine p ->
  (loading (current p) = true /\ (exists req, awaiting p = [req]) /\
   thinkingShown (view p) = true /\ inputDisabled (view p) = true /\
   sendDisabled (view p) = true) \/
  (loading (current p) = false /\ awaiting p = [] /\
   thinkingShown (view p) = false /\ inputDisabled (view p) = false).
Proof.
  intros Hp. destruct (rendered_page_is_session p Hp) as (w & Hw & ->).
  destruct (reachable_invariant engine w Hw) as [Hn _].
  unfold thinkingShown, inputDisabled, sendDisabled, page_of.
  cbn [current view awaiting].
  destruct (loading (ui w)).
  - left. split; [reflexivity|]. split; [|repeat split].
    destruct (in_flight w) as [|req [|req' l]]; try discriminate.
    exists req. reflexivity.
  - right. split; [reflexivity|]. split; [|split; reflexivity].
    destruct (in_flight w); [reflexivity | discriminate].
Qed.

(** X6: an outcome is terminal for its own submission only: in a reachable
    session that awaits a response, once the request has settled, however it
    ended, a newly typed non-blank input is sent with the same credential. *)
Theorem X6_next_submission_goes_out_after_settle
    (w : Session) (result : FetchResult) (now now' : Z) (typed : jsstring) :
  reachable engine w ->
  loading (ui w) = true ->
  trim typed <> [] ->
  in_flight (play engine w [Settle 0 result now; TypeInput typed; Submit now']) =
    [request (apiKey (ui w)) typed] /\
  loading (ui (play engine w [Settle 0 result now; TypeInput typed; Submit now'])) =
    true.
Proof.
  intros Hw L T. destruct (reachable_invariant engine w Hw) as [Hn Hk].
  specialize (Hk L). rewrite L in Hn.
  destruct (in_flight w) as [|req [|req' l]] eqn:F; try discriminate.
  destruct (settle_shape result now (ui w)) as (v & _ & E).
  assert (E1 : step engine w (Settle 0 result now) =
               {| ui := settled_state (ui w) (bot_message now v);
                  in_flight := [] |}).
  { unfold step. rewrite F. cbn [nth_error remove_nth]. rewrite E. reflexivity. }
  change (play engine w [Settle 0 result now; TypeInput typed; Submit now'])
    with (step engine (step engine (step engine w (Settle 0 result now))
                      (TypeInput typed)) (Submit now')).
  rewrite E1. unfold step.
  cbn [ui in_flight onChange setInput update next settled_state].
  match goal with
  | |- context [handleSendMessage_submit now' ?s] =>
      assert (A : accepted s)
        by (repeat split; [exact T | exact Hk]);
      rewrite (submit_accepted now' s A)
  end.
  split; reflexivity.
Qed.

Lemma step_settle (w : Session) (i : nat) (req : Request)
    (result : FetchResult) (now : Z) :
  nth_error (in_flight w) i = Some req ->
  step engine w (Settle i result now) =
  {| ui := next (handleSendMessage_settle engine result now (ui w));
     in_flight := remove_nth i (in_flight w) |}.
Proof. intros H. unfold step. rewrite H. reflexivity. Qed.

(** X7: "New Chat" does not cancel a pending request: the flag and the
    pending request stay, and when the request settles its reply or apology
    is appended to the fresh conversation, right after the greeting. *)
Theorem X7_new_chat_keeps_pending_request
    (w : Session) (req : Request) (rest : list Request)
    (result : FetchResult) (now : Z) :
  in_flight w = req :: rest ->
  loading (ui (step engine w NewChat)) = loading (ui w) /\
  in_flight (step engine w NewChat) = in_flight w /\
  loading (ui (play engine w [NewChat; Settle 0 result now])) = false /\
  exists v,
    messages (ui (play engine w [NewChat; Settle 0 result now])) =
      messages initial ++ [ {| id := now + 1; text := v; sender := bot |} ].
Proof.
  intros F. split; [reflexivity|]. split; [reflexivity|].
  change (play engine w [NewChat; Settle 0 result now])
    with (step engine (step engine w NewChat) (Settle 0 result now)).
  set (w1 := step engine w NewChat).
  assert (F1 : nth_error (in_flight w1) 0 = Some req)
    by (change (in_flight w1) with (in_flight w); rewrite F; reflexivity).
  assert (M1 : messages (ui w1) = messages initial) by reflexivity.
  rewrite (step_settle w1 0 req result now F1). cbn [ui].
  destruct (settle_shape result now (ui w1)) as (v & _ & E).
  rewrite E. cbn [settled_state loading messages]. rewrite M1.
  split; [reflexivity|]. exists v. reflexivity.
Qed.

(** X8: whatever the request settles with and whatever the state it finds,
    the rest of [handleSendMessage] completes normally, appends exactly one
    bot message with the clock reading plus one as its id, clears the
    awaiting-response flag, issues no request, and leaves the pending
    input, the credential and the sidebar flag alone. *)
Theorem X8_settle_touches_only_messages_and_loading
    (result : FetchResult) (now : Z) (s : State) :
  outcome (handleSendMessage_settle engine result now s) = Normal tt /\
  (exists v,
     messages (next (handleSendMessage_settle engine result now s)) =
       messages s ++ [ {| id := now + 1; text := v; sender := bot |} ]) /\
  loading (next (handleSendMessage_settle engine result now s)) = false /\
  input (next (handleSendMessage_settle engine result now s)) = input s /\
  apiKey (next (handleSendMessage_settle engine result now s)) = apiKey s /\
  sidebarOpen (next (handleSendMessage_settle engine result now s)) = sidebarOpen s /\
  filter is_fetch (effects (handleSendMessage_settle engine result now s)) = [].
Proof.
  destruct (settle_cases engine result now s) as [(_ & j & _ & E) | (_ & e & E)];
    rewrite E; (split; [reflexivity|]); (split; [eexists; reflexivity|]);
    repeat split.
Qed.

(** X9: an accepted submission always grows the conversation by exactly two
    messages, the user's with the raw input and then one from the bot,
    whatever the endpoint does; it ends with the input box emptied and the
    flag cleared, and keeps the credential and the sidebar flag. *)
Theorem X9_accepted_submission_appends_two
    (s : State) (now1 now2 : Z) (net : Request -> FetchResult) :
  accepted s ->
  (exists v,
     messages (next (handleSendMessage engine now1 net now2 s)) =
       messages s ++
       [ {| id := now1; text := Some (JStr (input s)); sender := user |};
         {| id := now2 + 1; text := v; sender := bot |} ]) /\
  input (next (handleSendMessage engine now1 net now2 s)) = [] /\
  loading (next (handleSendMessage engine now1 net now2 s)) = false /\
  apiKey (next (handleSendMessage engine now1 net now2 s)) = apiKey s /\
  sidebarOpen (next (handleSendMessage engine now1 net now2 s)) = sidebarOpen s.
Proof.
  intros A. rewrite (handleSendMessage_accepted engine now1 now2 net s A).
  cbn [next].
  destruct (settle_shape (net (request (apiKey s) (input s))) now2
              (pending_state now1 s)) as (v & _ & E).
  rewrite E. split; [|repeat split].
  exists v. cbn [settled_state pending_state messages].
  rewrite <- app_assoc. reflexivity.
Qed.

Lemma app_one_neq {A} (l : list A) (x : A) : l ++ [x] <> l.
Proof.
  intros H. apply (f_equal (@List.length A)) in H.
  rewrite length_app in H. simpl in H. lia.
Qed.

(** The entry of [handleSendMessage] is a no-op exactly on the gated
    states. *)
Lemma submit_noop_iff (s : State) (now : Z) :
  handleSendMessage_submit now s =
    {| outcome := Normal None; next := s; effects := [] |} <->
  loading s = true \/ trim (input s) = [].
Proof.
  split; [|apply submit_rejected].
  destruct (submit_cases now s) as [(G & _) | [(_ & E) | (_ & E)]].
  - intros _. exact G.
  - rewrite E. intros H. injection H as H.
    apply (f_equal messages) in H. cbn [with_messages messages] in H.
    apply app_one_neq in H. contradiction.
  - rewrite E. discriminate.
Qed.

Lemma sendDisabled_iff (s : State) :
  sendDisabled s = true <-> loading s = true \/ trim (input s) = [].
Proof.
  unfold sendDisabled. destruct (loading s); cbn [orb].
  - split; [left; reflexivity | reflexivity].
  - destruct (trim (input s)); cbn [truthy negb]; split.
    + right. reflexivity.
    + reflexivity.
    + discriminate.
    + intros [H | H]; discriminate H.
Qed.

(** X10: the send button is disabled exactly when a click would do nothing:
    while it is disabled the handler leaves the state alone and performs no
    effect, and while it is enabled the handler appends a message carrying
    the clock reading as its id. *)
Theorem X10_send_button_disabled_iff_submit_is_noop (s : State) (now : Z) :
  (sendDisabled s = true <->
   handleSendMessage_submit now s =
     {| outcome := Normal None; next := s; effects := [] |}) /\
  (sendDisabled s = false ->
   exists m, id m = now /\
     messages (next (handleSendMessage_submit now s)) = messages s ++ [m]).
Proof.
  split.
  - rewrite sendDisabled_iff, submit_noop_iff. reflexivity.
  - intros D.
    destruct (submit_cases now s) as [(G & _) | [(_ & E) | (_ & E)]].
    + apply sendDisabled_iff in G. congruence.
    + rewrite E. eexists. split; [|reflexivity]. reflexivity.
    + rewrite E. eexists. split; [|reflexivity]. reflexivity.
Qed.

(** X11: the entry guard looks at white space only: when no response is
    awaited, a submission is ignored exactly when the input consists of
    nothing but white-space code units (the empty input included). *)
Theorem X11_guard_rejects_exactly_blank_input (s : State) (now : Z) :
  loading s = false ->
  (forallb is_white (input s) = true <->
   handleSendMessage_submit now s =
     {| outcome := Normal None; next := s; effects := [] |}).
Proof.
  intros L. rewrite <- trim_blank, submit_noop_iff. split.
  - intros T. right. exact T.
  - intros [H | H]; [congruence | exact H].
Qed.

(** X12: the unguarded read [data.candidates[0].content.parts[0].text]
    cannot throw where it stands: whenever the optional chain of the line
    before found a truthy value, the plain chain reads that same value. *)
Theorem X12_reply_read_agrees_with_probe (data : json) (v : value) :
  reply_probe engine data = Normal v ->
  truthy_value v = true ->
  reply_read engine data = Normal v.
Proof.
  intros P V. destruct (null_or_not data) as [-> | D].
  - discriminate P.
  - rewrite (reply_probe_at_path engine data D) in P.
    assert (Hv : v = at_path (Some data) reply_path) by congruence.
    subst v. destruct (at_path (Some data) reply_path) as [j|] eqn:E.
    + apply reply_read_at_path. exact E.
    + discriminate V.
Qed.

(** X13: a response whose body cannot be read as JSON is reported with the
    reader's own error message whatever its status, successful or not: the
    status is never looked at. *)
Theorem X13_unreadable_body_reported_whatever_the_status
    (s : State) (now1 now2 : Z) (net : Request -> FetchResult)
    (r : Response) (e : Error) :
  accepted s ->
  net (request (apiKey s) (input s)) = Responded r ->
  json_body r = BodyRejected e ->
  messages (next (handleSendMessage engine now1 net now2 s)) =
    messages s ++
    [ {| id := now1; text := Some (JStr (input s)); sender := user |};
      {| id := now2 + 1;
         text := Some (JStr (lit "Sorry, I encountered an error: "
                             ++ error_message e));
         sender := bot |} ].
Proof.
  intros A N B.
  rewrite (handleSendMessage_accepted engine now1 now2 net s A). cbn [next].
  rewrite N, (settle_body_rejected engine r e now2 (pending_state now1 s) B).
  cbn [run_failure next settled_state pending_state messages].
  rewrite <- app_assoc. reflexivity.
Qed.

(** X14: a body that is the JSON value [null] makes the first property read
    throw: the apology carries the engine's TypeError text for reading
    [error] (status outside 200..299) or [candidates] (status inside), not
    the status and not the invalid-format message. *)
Theorem X14_null_body_reported_as_type_error
    (s : State) (now1 now2 : Z) (net : Request -> FetchResult) (r : Response) :
  accepted s ->
  net (request (apiKey s) (input s)) = Responded r ->
  json_body r = Parsed JNull ->
  messages (next (handleSendMessage engine now1 net now2 s)) =
    messages s ++
    [ {| id := now1; text := Some (JStr (input s)); sender := user |};
      {| id := now2 + 1;
         text := Some (JStr (lit "Sorry, I encountered an error: "
                             ++ nullish_read_message engine (Some JNull)
                                  (Name (if ok r then lit "candidates"
                                         else lit "error"))));
         sender := bot |} ].
Proof.
  intros A N B.
  rewrite (handleSendMessage_accepted engine now1 now2 net s A). cbn [next].
  rewrite N, (settle_null_body engine r now2 (pending_state now1 s) B).
  cbn [run_failure next settled_state pending_state messages].
  rewrite <- app_assoc. reflexivity.
Qed.

(** X15: for a status outside 200..299 whose body holds a non-empty string
    at [error.message], the apology carries that string as it is. *)
Theorem X15_error_message_of_body_surfaced
    (s : State) (now1 now2 : Z) (net : Request -> FetchResult)
    (r : Response) (data : json) (msg : jsstring) :
  accepted s ->
  net (request (apiKey s) (input s)) = Responded r ->
  ok r = false ->
  json_body r = Parsed data ->
  at_path (Some data) error_path = Some (JStr msg) ->
  msg <> [] ->
  messages (next (handleSendMessage engine now1 net now2 s)) =
    messages s ++
    [ {| id := now1; text := Some (JStr (input s)); sender := user |};
      {| id := now2 + 1;
         text := Some (JStr (lit "Sorry, I encountered an error: " ++ msg));
         sender := bot |} ].
Proof.
  intros A N O B P NE.
  assert (D : data <> JNull) by (intros ->; discriminate P).
  rewrite (non_success_surfaces_message_or_status engine s now1 now2 net r data
             A N O B D), P.
  unfold or_else. rewrite (truthy_nonempty msg NE). reflexivity.
Qed.

(** X16: for a status outside 200..299 whose body parsed to a value other
    than [null] with nothing truthy at [error.message] (no [error], no
    [message], or an empty one), the apology names the status in decimal. *)
Theorem X16_status_surfaced_without_error_message
    (s : State) (now1 now2 : Z) (net : Request -> FetchResult)
    (r : Response) (data : json) :
  accepted s ->
  net (request (apiKey s) (input s)) = Responded r ->
  ok r = false ->
  json_body r = Parsed data ->
  data <> JNull ->
  truthy_value (at_path (Some data) error_path) = false ->
  messages (next (handleSendMessage engine now1 net now2 s)) =
    messages s ++
    [ {| id := now1; text := Some (JStr (input s)); sender := user |};
      {| id := now2 + 1;
         text := Some (JStr (lit "Sorry, I encountered an error: "
                             ++ lit "API request failed with status "
                             ++ decimal (status r)));
         sender := bot |} ].
Proof.
  intros A N O B D P.
  rewrite (non_success_surfaces_message_or_status engine s now1 now2 net r data
             A N O B D).
  unfold or_else. destruct (at_path (Some data) error_path) as [j|].
  - cbn [truthy_value] in P. rewrite P. reflexivity.
  - reflexivity.
Qed.

(** *** Ids under a clock that keeps clear of them *)

Lemma sorted_snoc (l : list Z) (y : Z) :
  StronglySorted Z.lt l -> Forall (fun x => (x < y)%Z) l ->
  StronglySorted Z.lt (l ++ [y]).
Proof.
  induction l as [|a l IH]; intros S F; simpl.
  - constructor; constructor.
  - inversion S as [|? ? S' Fa]; subst. inversion F as [|? ? Ha F']; subst.
    constructor.
    + apply IH; assumption.
    + apply Forall_app. split; [exact Fa|]. constructor; [exact Ha | constructor].
Qed.

Lemma sorted_NoDup (l : list Z) : StronglySorted Z.lt l -> NoDup l.
Proof.
  induction 1 as [|a l S IH F]; constructor.
  - intros I. rewrite Forall_forall in F. specialize (F a I). lia.
  - exact IH.
Qed.

Lemma ids_below_weaken (b b' : Z) (s : State) :
  (b <= b')%Z -> ids_below b s -> ids_below b' s.
Proof.
  intros Hb (H1 & HS & HF). repeat split; [lia | exact HS |].
  eapply Forall_impl; [|exact HF]. intros x Hx. simpl in Hx. lia.
Qed.

Lemma ids_below_snoc (b y : Z) (s : State) (m : Message) (l : list Message) :
  ids_below b s -> (b < y)%Z -> id m = y -> l = messages s ++ [m] ->
  StronglySorted Z.lt (map id l) /\ Forall (fun x => (x <= y)%Z) (map id l).
Proof.
  intros (H1 & HS & HF) Hy Hm ->. rewrite map_app. cbn [map]. rewrite Hm. split.
  - apply sorted_snoc; [exact HS|].
    eapply Forall_impl; [|exact HF]. intros x Hx. simpl in Hx. lia.
  - apply Forall_app. split.
    + eapply Forall_impl; [|exact HF]. intros x Hx. simpl in Hx. lia.
    + constructor; [lia | constructor].
Qed.

Lemma step_ids (w : Session) (e : Event) (rest : list Event) (b : Z) :
  ids_below b (ui w) -> spaced b (e :: rest) ->
  exists b', ids_below b' (ui (step engine w e)) /\ spaced b' rest.
Proof.
  intros I S. destruct e as [now | i result now | v | | ]; cbn [spaced] in S.
  - destruct S as [Hb S]. exists now. split; [|exact S].
    unfold step. cbn [ui].
    destruct (submit_cases now (ui w)) as [(_ & E) | [(_ & E) | (_ & E)]];
      rewrite E; cbn [next].
    + apply (ids_below_weaken b now); [lia | exact I].
    + destruct (ids_below_snoc b now (ui w) (missing_key_message now)
                  (messages (ui w) ++ [missing_key_message now]) I Hb
                  eq_refl eq_refl) as [HS HF].
      destruct I as (H1 & _ & _). repeat split; [lia | exact HS | exact HF].
    + destruct (ids_below_snoc b now (ui w) (user_message now (ui w))
                  (messages (ui w) ++ [user_message now (ui w)]) I Hb
                  eq_refl eq_refl) as [HS HF].
      destruct I as (H1 & _ & _). repeat split; [lia | exact HS | exact HF].
  - destruct S as [Hb S]. exists (now + 1)%Z. split; [|exact S].
    unfold step. destruct (nth_error (in_flight w) i).
    + cbn [ui]. destruct (settle_shape result now (ui w)) as (v & _ & E).
      rewrite E.
      destruct (ids_below_snoc b (now + 1) (ui w) (bot_message now v)
                  (messages (ui w) ++ [bot_message now v]) I
                  ltac:(lia) eq_refl eq_refl) as [HS HF].
      destruct I as (H1 & _ & _). repeat split; [lia | exact HS | exact HF].
    + apply (ids_below_weaken b (now + 1)); [lia | exact I].
  - exists b. split; [exact I | exact S].
  - exists b. split; [|exact S]. destruct I as (H1 & _ & _).
    repeat split; [exact H1 | |].
    + cbn. constructor; constructor.
    + cbn. constructor; [exact H1 | constructor].
  - exists b. split; [exact I | exact S].
Qed.

(** X17: message ids are strictly increasing, hence pairwise distinct, along
    every run of events whose clock readings keep clear of the ids already
    given out: each submission reads the clock strictly after the largest
    id in use, and each settling request reads it at that id or later. *)
Theorem X17_ids_increase_under_spaced_clock
    (envKey : option jsstring) (events : list Event) :
  spaced 1 events ->
  StronglySorted Z.lt
    (map id (messages (ui (play engine (mounted envKey) events)))) /\
  NoDup (map id (messages (ui (play engine (mounted envKey) events)))).
Proof.
  intros S.
  assert (G : forall evs w b,
             ids_below b (ui w) -> spaced b evs ->
             StronglySorted Z.lt (map id (messages (ui (play engine w evs))))).
  { induction evs as [|e evs IH]; intros w b I Sp; simpl.
    - destruct I as (_ & HS & _). exact HS.
    - destruct (step_ids w e evs b I Sp) as (b' & I' & Sp').
      apply (IH _ b' I' Sp'). }
  assert (HS : StronglySorted Z.lt
                 (map id (messages (ui (play engine (mounted envKey) events))))).
  { apply (G events (mounted envKey) 1%Z); [|exact S].
    assert (M : messages (ui (mounted envKey)) = messages initial)
      by (destruct envKey as [[|c k]|]; reflexivity).
    unfold ids_below. rewrite M. cbn. repeat split.
    - lia.
    - constructor; constructor.
    - constructor; [lia | constructor]. }
  split; [exact HS | apply sorted_NoDup; exact HS].
Qed.

End Sessions.

(** ** The request determines what was sent *)

Lemma hex_value_digit (n : N) : (n < 16)%N -> hex_value (hex_digit n) = Some n.
Proof.
  intros H. unfold hex_digit, hex_value.
  destruct (N.ltb_spec n 10).
  - replace (N.leb 48 (48 + n) && N.leb (48 + n) 57) with true.
    + f_equal. lia.
    + symmetry. apply andb_true_iff. split; apply N.leb_le; lia.
  - replace (N.leb 48 (87 + n) && N.leb (87 + n) 57) with false.
    + replace (N.leb 97 (87 + n) && N.leb (87 + n) 102) with true.
      * f_equal. lia.
      * symmetry. apply andb_true_iff. split; apply N.leb_le; lia.
    + symmetry. apply andb_false_iff. right. apply N.leb_gt. lia.
Qed.

Lemma hex4_digits (c : N) :
  (c < 65536)%N ->
  hex4_value (hex_digit (N.modulo (N.div c 4096) 16))
    (hex_digit (N.modulo (N.div c 256) 16))
    (hex_digit (N.modulo (N.div c 16) 16)) (hex_digit (N.modulo c 16)) = Some c.
Proof.
  intros H. unfold hex4_value.
  rewrite !hex_value_digit by (apply N.mod_lt; discriminate).
  f_equal. zify. Z.to_euclidean_division_equations. lia.
Qed.

Lemma unquote_escape (c : code_unit) (rest : jsstring) :
  (c < 65536)%N ->
  unquote_units (unicode_escape c ++ rest) =
  match unquote_units rest with Some t => Some (c :: t) | None => None end.
Proof.
  intros H. unfold unicode_escape.
  change (lit "\u") with [92%N; 117%N]. cbn [app].
  cbn [unquote_units N.eqb Pos.eqb]. rewrite (hex4_digits c H). reflexivity.
Qed.

Lemma unquote_plain (c : code_unit) (rest : jsstring) :
  N.eqb c 92 = false -> N.eqb c 34 = false -> N.ltb c 32 = false ->
  unquote_units (c :: rest) =
  match unquote_units rest with Some t => Some (c :: t) | None => None end.
Proof.
  intros H1 H2 H3. cbn [unquote_units]. rewrite H1, H2, H3. reflexivity.
Qed.

(** Whatever [JSON.stringify] writes for one code unit reads back as it. *)
Lemma unquote_quote_unit (c : code_unit) (rest : jsstring) :
  unquote_units (quote_unit c ++ rest) =
  match unquote_units rest with Some t => Some (c :: t) | None => None end.
Proof.
  unfold quote_unit.
  destruct (N.eqb_spec c 8) as [-> | N8]; [reflexivity|].
  destruct (N.eqb_spec c 9) as [-> | N9]; [reflexivity|].
  destruct (N.eqb_spec c 10) as [-> | N10]; [reflexivity|].
  destruct (N.eqb_spec c 12) as [-> | N12]; [reflexivity|].
  destruct (N.eqb_spec c 13) as [-> | N13]; [reflexivity|].
  destruct (N.eqb_spec c 34) as [-> | N34]; [reflexivity|].
  destruct (N.eqb_spec c 92) as [-> | N92]; [reflexivity|].
  destruct (N.ltb c 32 || is_high_surrogate c || is_low_surrogate c) eqn:E.
  - apply unquote_escape.
    unfold is_high_surrogate, is_low_surrogate in E.
    rewrite !orb_true_iff, !andb_true_iff, N.ltb_lt, !N.leb_le in E. lia.
  - rewrite !orb_false_iff in E. destruct E as [[E _] _].
    apply unquote_plain;
      [apply N.eqb_neq; exact N92 | apply N.eqb_neq; exact N34 | exact E].
Qed.

Lemma list_ind2 {A} (P : list A -> Prop) :
  P [] -> (forall x, P [x]) ->
  (forall x y l, P l -> P (y :: l) -> P (x :: y :: l)) ->
  forall l, P l.
Proof.
  intros H0 H1 H2 l.
  assert (G : P l /\ forall x, P (x :: l)).
  { induction l as [|y l [IH1 IH2]].
    - split; [exact H0 | exact H1].
    - split; [apply IH2|]. intros x. apply H2; [exact IH1 | apply IH2]. }
  apply G.
Qed.

(** The quoted characters of a string read back as the string. *)
Lemma unquote_quote_units (s : jsstring) :
  unquote_units (quote_units s) = Some s.
Proof.
  induction s as [| c | c d r IHr IHd] using list_ind2.
  - reflexivity.
  - cbn [quote_units]. rewrite <- (app_nil_r (quote_unit c)).
    rewrite unquote_quote_unit. reflexivity.
  - change (quote_units (c :: d :: r)) with
      (if is_high_surrogate c && is_low_surrogate d
       then c :: d :: quote_units r
       else quote_unit c ++ quote_units (d :: r)).
    destruct (is_high_surrogate c && is_low_surrogate d) eqn:E.
    + unfold is_high_surrogate, is_low_surrogate in E.
      rewrite !andb_true_iff, !N.leb_le in E.
      rewrite unquote_plain, unquote_plain, IHr; try reflexivity;
        try (apply N.eqb_neq; lia); try (apply N.ltb_ge; lia).
    + rewrite unquote_quote_unit, IHd. reflexivity.
Qed.

Lemma quote_units_inj (s t : jsstring) : quote_units s = quote_units t -> s = t.
Proof.
  intros H. apply (f_equal unquote_units) in H.
  rewrite !unquote_quote_units in H. congruence.
Qed.

Lemma request_body_split (k t : jsstring) :
  body (request k t) = body_prefix ++ quote_units t ++ body_suffix.
Proof.
  unfold request, body_prefix, body_suffix. cbn [body JSON_stringify].
  unfold quote_json_string. rewrite <- !app_assoc. reflexivity.
Qed.

(** X18: the request carries the credential and the input without loss: two
    requests are the same only when both the credential and the input are
    the same, code unit for code unit. *)
Theorem X18_request_determines_credential_and_input (k k' t t' : jsstring) :
  request k t = request k' t' -> k = k' /\ t = t'.
Proof.
  intros H. split.
  - apply (f_equal url) in H. cbn [request url] in H.
    apply app_inv_head in H. exact H.
  - apply (f_equal body) in H. rewrite !request_body_split in H.
    apply app_inv_head in H. apply app_inv_tail in H.
    apply quote_units_inj. exact H.
Qed.

(** X19: whatever truthy value a 2xx body holds at the reply path, string or
    not, becomes the text of the bot message unchanged, and nothing is
    written to the console. *)
Theorem X19_truthy_reply_appended_as_is
    (engine : Engine)
    (s : State) (now1 now2 : Z) (net : Request -> FetchResult)
    (r : Response) (data j : json) :
  accepted s ->
  net (request (apiKey s) (input s)) = Responded r ->
  ok r = true ->
  json_body r = Parsed data ->
  at_path (Some data) reply_path = Some j ->
  truthy j = true ->
  messages (next (handleSendMessage engine now1 net now2 s)) =
    messages s ++
    [ {| id := now1; text := Some (JStr (input s)); sender := user |};
      {| id := now2 + 1; text := Some j; sender := bot |} ] /\
  effects (handleSendMessage engine now1 net now2 s) =
    [Fetch (request (apiKey s) (input s))].
Proof.
  intros A N O B P V.
  rewrite (handleSendMessage_accepted engine now1 now2 net s A). cbn [next effects].
  rewrite N, (settle_reply engine r data j now2 (pending_state now1 s) O B P V).
  cbn [run_reply next effects settled_state pending_state messages].
  rewrite <- app_assoc. split; reflexivity.
Qed.

(** ** Instances of the session properties *)

Lemma X2_witness :
  (Some ([] : jsstring) = None \/ Some ([] : jsstring) = Some []) /\
  in_flight (play v8 (mounted (Some []))
               [TypeInput (lit "hi"); Submit t0; Submit (t0 + 1)]) = [].
Proof.
  split; [right; reflexivity|].
  destruct (X2_no_request_without_credential v8 (Some [])
              [TypeInput (lit "hi"); Submit t0; Submit (t0 + 1)]) as (H & _).
  - right. reflexivity.
  - exact H.
Defined.

Lemma X3_witness :
  exists rest,
    messages (ui waiting) =
      {| id := 1;
         text := Some (JStr (lit "Hello! I'm FaskerAI. How can I help you today?"));
         sender := bot |} :: rest.
Proof.
  apply (X3_conversation_starts_with_greeting v8 waiting).
  exists (Some (lit "secret")), [TypeInput (lit "2+2?"); Submit t0]. reflexivity.
Defined.

Lemma X5_witness :
  rendered_after_every_event v8 waiting_page /\
  loading (current waiting_page) = true /\
  ((loading (current waiting_page) = true /\
    (exists req, awaiting waiting_page = [req]) /\
    thinkingShown (view waiting_page) = true /\
    inputDisabled (view waiting_page) = true /\
    sendDisabled (view waiting_page) = true) \/
   (loading (current waiting_page) = false /\ awaiting waiting_page = [] /\
    thinkingShown (view waiting_page) = false /\
    inputDisabled (view waiting_page) = false)).
Proof.
  split; [exists (Some (lit "secret")), [TypeInput (lit "2+2?"); Submit t0];
          reflexivity|].
  split; [reflexivity|].
  apply (X5_loading_tells_pending_request v8 waiting_page).
  exists (Some (lit "secret")), [TypeInput (lit "2+2?"); Submit t0]. reflexivity.
Defined.

Lemma X6_witness :
  in_flight (play v8 waiting
               [ Settle 0 (Rejected failed_to_fetch) (t0 + 850);
                 TypeInput (lit "again"); Submit (t0 + 5000) ]) =
    [request (apiKey (ui waiting)) (lit "again")] /\
  loading (ui (play v8 waiting
                 [ Settle 0 (Rejected failed_to_fetch) (t0 + 850);
                   TypeInput (lit "again"); Submit (t0 + 5000) ])) = true.
Proof.
  apply (X6_next_submission_goes_out_after_settle v8
           waiting (Rejected failed_to_fetch) (t0 + 850) (t0 + 5000) (lit "again")).
  - exists (Some (lit "secret")), [TypeInput (lit "2+2?"); Submit t0]. reflexivity.
  - reflexivity.
  - vm_compute. discriminate.
Defined.

Lemma X7_witness :
  in_flight waiting = [request (lit "secret") (lit "2+2?")] /\
  loading (ui (play v8 waiting
                 [NewChat; Settle 0 (Responded reply_4) (t0 + 850)])) = false.
Proof.
  split; [reflexivity|].
  destruct (X7_new_chat_keeps_pending_request v8 waiting
              (request (lit "secret") (lit "2+2?")) [] (Responded reply_4)
              (t0 + 850)) as (_ & _ & H & _).
  - reflexivity.
  - exact H.
Defined.

Lemma X9_witness :
  accepted asking /\
  input (next (handleSendMessage v8 t0
                 (answering bad_gateway) (t0 + 850) asking)) = [].
Proof.
  split; [repeat split; vm_compute; discriminate|].
  destruct (X9_accepted_submission_appends_two v8 asking
              t0 (t0 + 850) (answering bad_gateway)) as (_ & H & _).
  - repeat split; vm_compute; discriminate.
  - exact H.
Defined.

Lemma X10_witness :
  sendDisabled asking = false /\
  exists m, id m = t0 /\
    messages (next (handleSendMessage_submit t0 asking)) = messages asking ++ [m].
Proof.
  split; [reflexivity|].
  destruct (X10_send_button_disabled_iff_submit_is_noop asking t0) as [_ H].
  apply H. reflexivity.
Defined.

Lemma X11_witness :
  (loading blank_typed = false /\
   forallb is_white (input blank_typed) = true /\
   handleSendMessage_submit t0 blank_typed =
     {| outcome := Normal None; next := blank_typed; effects := [] |}) /\
  (loading asking = false /\
   forallb is_white (input asking) = false /\
   handleSendMessage_submit t0 asking <>
     {| outcome := Normal None; next := asking; effects := [] |}).
Proof.
  split.
  - split; [reflexivity|]. split; [reflexivity|].
    apply (X11_guard_rejects_exactly_blank_input blank_typed t0).
    + reflexivity.
    + reflexivity.
  - split; [reflexivity|]. split; [reflexivity|].
    intros H.
    apply (X11_guard_rejects_exactly_blank_input asking t0) in H.
    + discriminate H.
    + reflexivity.
Defined.

Lemma X12_witness :
  reply_read v8 (success_body (JStr (lit "4"))) =
    Normal (Some (JStr (lit "4"))).
Proof.
  apply (X12_reply_read_agrees_with_probe v8
           (success_body (JStr (lit "4"))) (Some (JStr (lit "4")))).
  - reflexivity.
  - reflexivity.
Defined.

Lemma X13_witness :
  accepted asking /\
  messages (next (handleSendMessage v8 t0
                    (answering bad_gateway) (t0 + 850) asking)) =
    messages asking ++
    [ {| id := t0; text := Some (JStr (input asking)); sender := user |};
      {| id := t0 + 850 + 1;
         text := Some (JStr (lit "Sorry, I encountered an error: "
                             ++ lit "Unexpected token < in JSON at position 0"));
         sender := bot |} ].
Proof.
  split; [repeat split; vm_compute; discriminate|].
  apply (X13_unreadable_body_reported_whatever_the_status
           v8 asking t0 (t0 + 850) (answering bad_gateway)
           bad_gateway
           {| error_name := lit "SyntaxError";
              error_message := lit "Unexpected token < in JSON at position 0" |}).
  - repeat split; vm_compute; discriminate.
  - reflexivity.
  - reflexivity.
Defined.

Lemma X14_witness :
  accepted asking /\
  messages (next (handleSendMessage v8 t0
                    (answering {| status := 200; json_body := Parsed JNull |})
                    (t0 + 850) asking)) =
    messages asking ++
    [ {| id := t0; text := Some (JStr (input asking)); sender := user |};
      {| id := t0 + 850 + 1;
         text := Some (JStr (lit "Sorry, I encountered an error: "
                             ++ lit "Cannot read properties of null (reading 'candidates')"));
         sender := bot |} ].
Proof.
  split; [repeat split; vm_compute; discriminate|].
  apply (X14_null_body_reported_as_type_error v8 asking t0
           (t0 + 850) (answering {| status := 200; json_body := Parsed JNull |})
           {| status := 200; json_body := Parsed JNull |}).
  - repeat split; vm_compute; discriminate.
  - reflexivity.
  - reflexivity.
Defined.

Lemma X15_witness :
  accepted asking /\
  messages (next (handleSendMessage v8 t0
                    (answering quota_exceeded) (t0 + 850) asking)) =
    messages asking ++
    [ {| id := t0; text := Some (JStr (input asking)); sender := user |};
      {| id := t0 + 850 + 1;
         text := Some (JStr (lit "Sorry, I encountered an error: "
                             ++ lit "quota exceeded"));
         sender := bot |} ].
Proof.
  split; [repeat split; vm_compute; discriminate|].
  apply (X15_error_message_of_body_surfaced v8 asking t0
           (t0 + 850) (answering quota_exceeded) quota_exceeded
           (error_body (JStr (lit "quota exceeded"))) (lit "quota exceeded")).
  - repeat split; vm_compute; discriminate.
  - reflexivity.
  - reflexivity.
  - reflexivity.
  - reflexivity.
  - discriminate.
Defined.

Lemma X16_witness :
  accepted asking /\
  messages (next (handleSendMessage v8 t0
                    (answering {| status := 503; json_body := Parsed (JObj []) |})
                    (t0 + 850) asking)) =
    messages asking ++
    [ {| id := t0; text := Some (JStr (input asking)); sender := user |};
      {| id := t0 + 850 + 1;
         text := Some (JStr (lit "Sorry, I encountered an error: "
                             ++ lit "API request failed with status "
                             ++ lit "503"));
         sender := bot |} ].
Proof.
  split; [repeat split; vm_compute; discriminate|].
  apply (X16_status_surfaced_without_error_message v8
           asking t0 (t0 + 850)
           (answering {| status := 503; json_body := Parsed (JObj []) |})
           {| status := 503; json_body := Parsed (JObj []) |} (JObj [])).
  - repeat split; vm_compute; discriminate.
  - reflexivity.
  - reflexivity.
  - reflexivity.
  - discriminate.
  - reflexivity.
Defined.

Lemma X17_witness :
  spaced 1 two_exchanges /\
  NoDup (map id (messages (ui (play v8
                                 (mounted (Some (lit "secret"))) two_exchanges)))).
Proof.
  assert (S : spaced 1 two_exchanges) by (cbn; lia).
  split; [exact S|].
  destruct (X17_ids_increase_under_spaced_clock v8
              (Some (lit "secret")) two_exchanges S) as [_ H].
  exact H.
Defined.

Lemma X18_witness :
  request (lit "secret") (lit "2+2?") = request (lit "secret") (lit "2+2?") /\
  lit "secret" = lit "secret" /\ lit "2+2?" = lit "2+2?".
Proof.
  split; [reflexivity|].
  apply (X18_request_determines_credential_and_input
           (lit "secret") (lit "secret") (lit "2+2?") (lit "2+2?")).
  reflexivity.
Defined.

Lemma X19_witness :
  accepted asking /\
  messages (next (handleSendMessage v8 t0
                    (answering reply_true) (t0 + 850) asking)) =
    messages asking ++
    [ {| id := t0; text := Some (JStr (input asking)); sender := user |};
      {| id := t0 + 850 + 1; text := Some (JBool true); sender := bot |} ] /\
  effects (handleSendMessage v8 t0
             (answering reply_true) (t0 + 850) asking) =
    [Fetch (request (apiKey asking) (input asking))].
Proof.
  split; [repeat split; vm_compute; discriminate|].
  apply (X19_truthy_reply_appended_as_is v8 asking t0
           (t0 + 850) (answering reply_true) reply_true
           (success_body (JBool true)) (JBool true)).
  - repeat split; vm_compute; discriminate.
  - reflexivity.
  - reflexivity.
  - reflexivity.
  - reflexivity.
  - reflexivity.
Defined.

(** ** Handlers of an earlier render *)

(** X20: the entry of [handleSendMessage] does nothing exactly when the
    render that created the handler saw the awaiting-response flag set or an
    input that is empty after trimming, whatever the state has become since:
    a handler whose render saw neither appends a message even if the flag
    has been set in the meantime. *)
Theorem X20_handler_is_noop_iff_its_render_was_gated
    (seen s : State) (now : Z) :
  handleSendMessage_submit_of seen now s =
    {| outcome := Normal None; next := s; effects := [] |} <->
  loading seen = true \/ trim (input seen) = [].
Proof.
  unfold handleSendMessage_submit_of.
  destruct (loading seen) eqn:L.
  - rewrite orb_true_r. split; [left; reflexivity | reflexivity].
  - rewrite orb_false_r.
    destruct (trim (input seen)) as [|c t] eqn:T; cbn [truthy negb].
    + split; [right; reflexivity | reflexivity].
    + split; [|intros [H | H]; discriminate H].
      destruct (apiKey seen) as [|d k]; cbn [truthy negb]; intros H.
      * apply (f_equal (fun r => messages (next r))) in H.
        cbn in H. apply app_one_neq in H. contradiction.
      * apply (f_equal (fun r => effects r)) in H. cbn in H. discriminate H.
Qed.

Lemma X20_witness :
  loading asking = false /\
  loading busy = true /\
  handleSendMessage_submit_of busy t0 asking =
    {| outcome := Normal None; next := asking; effects := [] |} /\
  handleSendMessage_submit_of asking t0 busy <>
    {| outcome := Normal None; next := busy; effects := [] |}.
Proof.
  split; [reflexivity|]. split; [reflexivity|]. split.
  - apply (X20_handler_is_noop_iff_its_render_was_gated busy asking t0).
    left. reflexivity.
  - intros H.
    apply (X20_handler_is_noop_iff_its_render_was_gated asking busy t0) in H.
    destruct H as [H | H]; vm_compute in H; discriminate H.
Defined.

(** X21: for a status outside 200..299 whose body holds at [error.message]
    an object with a member of its own called [toString], [new Error]
    cannot convert the object to a string: the apology carries the engine's
    TypeError text for that conversion, neither the body's message nor the
    status. *)
Theorem X21_unconvertible_error_message_reported_as_type_error
    (engine : Engine)
    (s : State) (now1 now2 : Z) (net : Request -> FetchResult)
    (r : Response) (data : json) (fields : list (jsstring * json)) :
  accepted s ->
  net (request (apiKey s) (input s)) = Responded r ->
  ok r = false ->
  json_body r = Parsed data ->
  at_path (Some data) error_path = Some (JObj fields) ->
  has_member fields (lit "toString") = true ->
  messages (next (handleSendMessage engine now1 net now2 s)) =
    messages s ++
    [ {| id := now1; text := Some (JStr (input s)); sender := user |};
      {| id := now2 + 1;
         text := Some (JStr (lit "Sorry, I encountered an error: "
                             ++ to_primitive_message engine));
         sender := bot |} ].
Proof.
  intros A N O B P T.
  assert (D : data <> JNull) by (intros ->; discriminate P).
  rewrite (non_success_surfaces_message_or_status engine s now1 now2 net r data
             A N O B D), P.
  unfold or_else, new_Error. cbn [truthy to_string]. rewrite T. reflexivity.
Qed.

Lemma X21_witness :
  accepted asking /\
  messages (next (handleSendMessage v8 t0
                    (answering {| status := 500;
                                  json_body := Parsed (error_body
                                    (JObj [ (lit "toString", JNull) ])) |})
                    (t0 + 850) asking)) =
    messages asking ++
    [ {| id := t0; text := Some (JStr (input asking)); sender := user |};
      {| id := t0 + 850 + 1;
         text := Some (JStr (lit "Sorry, I encountered an error: "
                             ++ lit "Cannot convert object to primitive value"));
         sender := bot |} ].
Proof.
  split; [repeat split; vm_compute; discriminate|].
  apply (X21_unconvertible_error_message_reported_as_type_error v8 asking t0
           (t0 + 850)
           (answering {| status := 500;
                         json_body := Parsed (error_body
                           (JObj [ (lit "toString", JNull) ])) |})
           {| status := 500;
              json_body := Parsed (error_body (JObj [ (lit "toString", JNull) ])) |}
           (error_body (JObj [ (lit "toString", JNull) ]))
           [ (lit "toString", JNull) ]).
  - repeat split; vm_compute; discriminate.
  - reflexivity.
  - reflexivity.
  - reflexivity.
  - reflexivity.
  - reflexivity.
Defined.
